(** * weather-radar: the MRMS resolver, its cache, the radar endpoint,
      the map display controller and the page's refresh button.

    The development follows the TypeScript sources:
    - the route handler (resolver, cache, [GET]) in module [Route];
    - [src/components/radar-display.tsx] in module [Display];
    - [src/app/page.tsx] in module [Page].

    Instants are milliseconds since the epoch, as ECMAScript time values,
    held in [Z].  Buffers and strings are [string] (one [ascii] per byte).
    Everything the handler reaches over the network is a parameter of the
    section that embeds it.

    One call of a handler function runs to its end before the next starts.
    What an overlapping refresh leaves behind is the flag [isFetching], and
    the theorems hold for either value of it.  On the client the awaits of
    [fetchRadar] and [initMap] are cut points: the parts between them are
    the steps of a state machine, and steps of different calls interleave
    freely. *)

From Stdlib Require Import ZArith List String Ascii Bool Lia.
From Stdlib Require Import DecimalString.
From Stdlib Require Import Sorting.Permutation Sorting.Sorted.
Import ListNotations.

Local Open Scope string_scope.
Local Open Scope Z_scope.

(** ** The parts of the ECMAScript runtime the sources call *)

Module JS.

(** [String(n)] for an integer [n]. *)
Definition String_of (n : Z) : string := NilZero.string_of_int (Z.to_int n).

(** [s.padStart(n, "0")]. *)
Fixpoint zeros (n : nat) : string :=
  match n with
  | O => EmptyString
  | S k => String "0"%char (zeros k)
  end.

Definition padStart (n : nat) (s : string) : string :=
  zeros (n - String.length s) ++ s.

(** Time values: the day number and the fields of the time within the day. *)
Definition msPerDay : Z := 86400000.
Definition Day (t : Z) : Z := t / msPerDay.

Definition HourFromTime (t : Z) : Z := (t / 3600000) mod 24.
Definition MinFromTime (t : Z) : Z := (t / 60000) mod 60.
Definition SecFromTime (t : Z) : Z := (t / 1000) mod 60.
Definition msFromTime (t : Z) : Z := t mod 1000.

(** Proleptic Gregorian calendar from the day number: year, month (1..12)
    and day of the month. *)
Definition civil (days : Z) : Z * Z * Z :=
  let z := days + 719468 in
  let era := z / 146097 in
  let doe := z - era * 146097 in
  let yoe := (doe - doe / 1460 + doe / 36524 - doe / 146096) / 365 in
  let y := yoe + era * 400 in
  let doy := doe - (365 * yoe + yoe / 4 - yoe / 100) in
  let mp := (5 * doy + 2) / 153 in
  let d := doy - (153 * mp + 2) / 5 + 1 in
  let m := if mp <? 10 then mp + 3 else mp - 9 in
  (if m <=? 2 then y + 1 else y, m, d).

Definition getUTCFullYear (t : Z) : Z := fst (fst (civil (Day t))).
Definition getUTCMonth (t : Z) : Z := snd (fst (civil (Day t))) - 1.
Definition getUTCDate (t : Z) : Z := snd (civil (Day t)).
Definition getUTCHours (t : Z) : Z := HourFromTime t.
Definition getUTCMinutes (t : Z) : Z := MinFromTime t.
Definition getUTCSeconds (t : Z) : Z := SecFromTime t.
Definition getUTCMilliseconds (t : Z) : Z := msFromTime t.

Definition MakeTime (h m s ms : Z) : Z := h * 3600000 + m * 60000 + s * 1000 + ms.
Definition MakeDate (day time : Z) : Z := day * msPerDay + time.

(** The setters rebuild the time value from its fields, one field replaced. *)
Definition setUTCMinutes (t m : Z) : Z :=
  MakeDate (Day t) (MakeTime (HourFromTime t) m (SecFromTime t) (msFromTime t)).
Definition setUTCSeconds (t s : Z) : Z :=
  MakeDate (Day t) (MakeTime (HourFromTime t) (MinFromTime t) s (msFromTime t)).
Definition setUTCMilliseconds (t ms : Z) : Z :=
  MakeDate (Day t) (MakeTime (HourFromTime t) (MinFromTime t) (SecFromTime t) ms).

(** [d.toISOString()] of a valid date: four-digit years between 0 and 9999,
    a sign and six digits outside. *)
Definition isoYear (y : Z) : string :=
  if (0 <=? y) && (y <=? 9999) then padStart 4 (String_of y)
  else if y <? 0 then "-" ++ padStart 6 (String_of (- y))
  else "+" ++ padStart 6 (String_of y).

Definition toISOString (t : Z) : string :=
  isoYear (getUTCFullYear t) ++ "-" ++
  padStart 2 (String_of (getUTCMonth t + 1)) ++ "-" ++
  padStart 2 (String_of (getUTCDate t)) ++ "T" ++
  padStart 2 (String_of (getUTCHours t)) ++ ":" ++
  padStart 2 (String_of (getUTCMinutes t)) ++ ":" ++
  padStart 2 (String_of (getUTCSeconds t)) ++ "." ++
  padStart 3 (String_of (getUTCMilliseconds t)) ++ "Z".

(** Truthiness of a possibly absent string: [undefined], [null] and the
    empty string are falsy. *)
Definition truthy (s : option string) : bool :=
  match s with
  | Some EmptyString | None => false
  | Some _ => true
  end.

(** A possibly absent string guarded by its truthiness. *)
Definition if_truthy (s : option string) : option string :=
  if truthy s then s else None.

(** [a.localeCompare(b)] on the strings the resolver compares (decimal
    digits and a hyphen at the same place in both): code-unit order. *)
Definition localeCompare (a b : string) : comparison := String.compare a b.

(** [s.substring(i, j)] with [0 <= i <= j]. *)
Definition substring (i j : nat) (s : string) : string :=
  String.substring i (j - i) s.

End JS.

(** ** The route handler: resolver, cache and [GET /api/radar-data] *)

Module Route.

(** What [axios.get] resolves to: the HTTP status and the body ([None] when
    the body is absent or is not text or bytes). *)
Record Response := { status : Z; data : option string }.

(** The object [parseGRIB2Data] returns. Coordinates are whole degrees. *)
Record Metadata := {
  found : bool;
  lat_min : Z;
  lat_max : Z;
  lon_min : Z;
  lon_max : Z
}.

(** The object [getLatestMRMSData] returns, [{ timestamp, fileUrl, ...metadata }]. *)
Record MrmsData := {
  timestamp : string;
  fileUrl : string;
  metadata : Metadata
}.

(** The cache slot's content, [{ ...mrmData, lastFetched }]. *)
Record Cached := {
  mrmData : MrmsData;
  lastFetched : Z
}.

(** The module-level variables, and the list of every URL handed to
    [axios.get] so far (latest first). *)
Record Store := {
  cachedData : option Cached;
  isFetching : bool;
  requested : list string
}.

Definition CACHE_DURATION : Z := 2 * 60 * 1000.

Inductive result (A : Type) : Type :=
| Ok (a : A)
| Throw (message : string).
Arguments Ok {A} a.
Arguments Throw {A} message.

Record Bounds := { north : Z; south : Z; east : Z; west : Z }.

(** The JSON bodies of [Response.json]. *)
Inductive Body : Type :=
| SuccessBody (timestamp tile_url source coverage : string) (bounds : Bounds)
| ErrorBody (error message : string).

Record HttpResponse := { http_status : Z; body : Body }.

Definition success (b : Body) : bool :=
  match b with SuccessBody _ _ _ _ _ => true | ErrorBody _ _ => false end.
Definition body_timestamp (b : Body) : option string :=
  match b with SuccessBody t _ _ _ _ => Some t | ErrorBody _ _ => None end.
Definition body_tile_url (b : Body) : option string :=
  match b with SuccessBody _ u _ _ _ => Some u | ErrorBody _ _ => None end.
Definition body_source (b : Body) : option string :=
  match b with SuccessBody _ _ s _ _ => Some s | ErrorBody _ _ => None end.
Definition body_coverage (b : Body) : option string :=
  match b with SuccessBody _ _ _ c _ => Some c | ErrorBody _ _ => None end.
Definition body_bounds (b : Body) : option Bounds :=
  match b with SuccessBody _ _ _ _ bs => Some bs | ErrorBody _ _ => None end.

Definition baseUrl : string :=
  "https://mrms.ncep.noaa.gov/data/2D/ReflectivityAtLowestAltitude/".

(** *** The file pattern
    [/MRMS_ReflectivityAtLowestAltitude_00\.50_(\d{8}-\d{6})\.grib2\.gz/g] *)

Record RegExpMatch := { m0 : string; m1 : string }.

Definition is_digit (c : ascii) : bool :=
  let n := N_of_ascii c in ((48 <=? n) && (n <=? 57))%N.

Fixpoint take_digits (n : nat) (s : string) : option (string * string) :=
  match n with
  | O => Some (EmptyString, s)
  | S k =>
      match s with
      | String c s' =>
          if is_digit c then
            match take_digits k s' with
            | Some (ds, rest) => Some (String c ds, rest)
            | None => None
            end
          else None
      | EmptyString => None
      end
  end.

Fixpoint take_literal (lit s : string) : option string :=
  match lit with
  | EmptyString => Some s
  | String c lit' =>
      match s with
      | String d s' => if Ascii.eqb c d then take_literal lit' s' else None
      | EmptyString => None
      end
  end.

Definition file_prefix : string := "MRMS_ReflectivityAtLowestAltitude_00.50_".
Definition file_suffix : string := ".grib2.gz".

(** One attempt of the pattern at the start of [s]. *)
Definition match_here (s : string) : option RegExpMatch :=
  match take_literal file_prefix s with
  | None => None
  | Some r1 =>
  match take_digits 8 r1 with
  | None => None
  | Some (d8, r2) =>
  match take_literal "-" r2 with
  | None => None
  | Some r3 =>
  match take_digits 6 r3 with
  | None => None
  | Some (d6, r4) =>
  match take_literal file_suffix r4 with
  | None => None
  | Some _ =>
      let ts := d8 ++ "-" ++ d6 in
      Some {| m0 := file_prefix ++ ts ++ file_suffix; m1 := ts |}
  end end end end end.

(** [[...html.matchAll(filePattern)]]: matches from left to right, the scan
    resuming after the end of each match ([skip] characters are passed over). *)
Fixpoint matchAll_from (skip : nat) (s : string) : list RegExpMatch :=
  match s with
  | EmptyString => []
  | String _ s' =>
      match skip with
      | S k => matchAll_from k s'
      | O =>
          match match_here s with
          | Some m => m :: matchAll_from (String.length (m0 m) - 1) s'
          | None => matchAll_from 0 s'
          end
      end
  end.

Definition matchAll (html : string) : list RegExpMatch := matchAll_from 0 html.

(** [(a, b) => b[1].localeCompare(a[1])] *)
Definition by_timestamp_desc (a b : RegExpMatch) : comparison :=
  JS.localeCompare (m1 b) (m1 a).

(** [Array.prototype.sort] is stable, and a stable sort has one result for a
    given comparator: insertion from the right computes it. *)
Fixpoint insert_sorted (cmp : RegExpMatch -> RegExpMatch -> comparison)
  (x : RegExpMatch) (l : list RegExpMatch) : list RegExpMatch :=
  match l with
  | [] => [x]
  | y :: l' =>
      match cmp x y with
      | Gt => y :: insert_sorted cmp x l'
      | _ => x :: l
      end
  end.

Fixpoint sort (cmp : RegExpMatch -> RegExpMatch -> comparison)
  (l : list RegExpMatch) : list RegExpMatch :=
  match l with
  | [] => []
  | x :: l' => insert_sorted cmp x (sort cmp l')
  end.

(** *** [parseGRIB2Data] *)

(** [buffer.toString("ascii", 0, 4)]: at most four bytes, the high bit of
    each cleared. *)
Definition ascii7 (c : ascii) : ascii :=
  match c with
  | Ascii b0 b1 b2 b3 b4 b5 b6 _ => Ascii b0 b1 b2 b3 b4 b5 b6 false
  end.

Fixpoint toString_ascii (n : nat) (buffer : string) : string :=
  match n, buffer with
  | S k, String c rest => String (ascii7 c) (toString_ascii k rest)
  | _, _ => EmptyString
  end.

Definition gzip_magic (gribBuffer : string) : bool :=
  match gribBuffer with
  | String c0 (String c1 (String c2 _)) =>
      ((N_of_ascii c0 =? 31) && (N_of_ascii c1 =? 139) && (N_of_ascii c2 =? 8))%N
  | _ => false
  end.

Definition conus : Metadata :=
  {| found := true; lat_min := 20; lat_max := 50; lon_min := -130; lon_max := -60 |}.

(** *** The ISO string of a matched timestamp, [yyyymmdd-hhmmss] *)
Definition iso_of_match (latestTimestamp : string) : string :=
  let year := JS.substring 0 4 latestTimestamp in
  let month := JS.substring 4 6 latestTimestamp in
  let day := JS.substring 6 8 latestTimestamp in
  let hour := JS.substring 9 11 latestTimestamp in
  let minute := JS.substring 11 13 latestTimestamp in
  let second := JS.substring 13 15 latestTimestamp in
  year ++ "-" ++ month ++ "-" ++ day ++ "T" ++ hour ++ ":" ++ minute ++ ":" ++ second ++ "Z".

(** *** The candidate of the fallback loop *)

(** [checkTime] after the three setters. *)
Definition checkTime_of (now minutesBack : Z) : Z :=
  let checkTime := now - minutesBack * 60000 in
  let roundedMinute := (JS.getUTCMinutes checkTime / 2) * 2 in
  let checkTime := JS.setUTCMinutes checkTime roundedMinute in
  let checkTime := JS.setUTCSeconds checkTime 0 in
  JS.setUTCMilliseconds checkTime 0.

(** [`${year}${month}${day}-${hour}${minute}00`] *)
Definition timestamp_of (checkTime : Z) : string :=
  let year := JS.String_of (JS.getUTCFullYear checkTime) in
  let month := JS.padStart 2 (JS.String_of (JS.getUTCMonth checkTime + 1)) in
  let day := JS.padStart 2 (JS.String_of (JS.getUTCDate checkTime)) in
  let hour := JS.padStart 2 (JS.String_of (JS.getUTCHours checkTime)) in
  let minute := JS.padStart 2 (JS.String_of (JS.getUTCMinutes checkTime)) in
  year ++ month ++ day ++ "-" ++ hour ++ minute ++ "00".

Definition fileUrl_of (checkTime : Z) : string :=
  baseUrl ++ file_prefix ++ timestamp_of checkTime ++ file_suffix.

Definition unavailable : string :=
  "Could not find recent MRMS RALA data within last 60 minutes".

(** *** The fixed parts of the success response *)
Definition tileUrl : string :=
  "https://mesonet.agron.iastate.edu/cache/tile.py/1.0.0/nexrad-n0q-900913/{z}/{x}/{y}.png".
Definition secondary_source : string := "Iowa Environmental Mesonet NEXRAD".
Definition primary_source : string := "MRMS_ReflectivityAtLowestAltitude (Cached)".
Definition conus_coverage : string := "Continental United States (CONUS) only".
Definition conus_bounds : Bounds :=
  {| north := 50; south := 20; east := -60; west := -130 |}.

(** *** The candidates, in the words of the specification
    Rounding down to the even minute, the instant of the [k]-th step back,
    and the file name the pattern [yyyymmdd-hhmmss] gives an instant. *)
Definition floor_even_minute (t : Z) : Z := 120000 * (t / 120000).

Definition candidate (now : Z) (k : nat) : Z :=
  floor_even_minute (now - Z.of_nat k * 120000).

Definition candidates (now : Z) : list Z := map (candidate now) (seq 0 31).

Definition expected_timestamp (t : Z) : string :=
  JS.String_of (JS.getUTCFullYear t) ++
  JS.padStart 2 (JS.String_of (JS.getUTCMonth t + 1)) ++
  JS.padStart 2 (JS.String_of (JS.getUTCDate t)) ++ "-" ++
  JS.padStart 2 (JS.String_of (JS.getUTCHours t)) ++
  JS.padStart 2 (JS.String_of (JS.getUTCMinutes t)) ++
  JS.padStart 2 (JS.String_of (JS.getUTCSeconds t)).

Definition expected_fileUrl (t : Z) : string :=
  baseUrl ++ file_prefix ++ expected_timestamp t ++ file_suffix.

(** A directory listing with three files, out of order. *)
Definition example_listing : string :=
  "<html><body><pre>" ++
  "<a href='MRMS_ReflectivityAtLowestAltitude_00.50_20240101-000000.grib2.gz'>first</a> " ++
  "<a href='MRMS_ReflectivityAtLowestAltitude_00.50_20240101-001000.grib2.gz'>second</a> " ++
  "<a href='MRMS_ReflectivityAtLowestAltitude_00.50_20240101-000500.grib2.gz'>third</a> " ++
  "<a href='MRMS_ReflectivityAtLowestAltitude_00.50_latest.grib2.gz'>latest</a>" ++
  "</pre></body></html>".

(** *** The shape of a matched timestamp *)

Fixpoint all_digits (s : string) : bool :=
  match s with
  | EmptyString => true
  | String c rest => is_digit c && all_digits rest
  end.

(** Eight digits, a hyphen, six digits. *)
Definition timestamp_shaped (ts : string) : Prop :=
  exists d8 d6,
    ts = d8 ++ "-" ++ d6 /\
    String.length d8 = 8%nat /\ String.length d6 = 6%nat /\
    all_digits d8 = true /\ all_digits d6 = true.

(** The order the comparator of the sort puts on two neighbours: the
    timestamp of the second is not above the timestamp of the first. *)
Definition desc (a b : RegExpMatch) : Prop := String.leb (m1 b) (m1 a) = true.

(** *** A closed world to run the handler in
    A clock that every request advances by one second, and a table of the
    URLs that answer. *)
Record World := { clock : Z; site : list (string * Response) }.

Fixpoint lookup (url : string) (table : list (string * Response)) : option Response :=
  match table with
  | [] => None
  | (u, r) :: rest => if String.eqb u url then Some r else lookup url rest
  end.

Definition world_get (url : string) (w : World) : option Response * World :=
  (lookup url (site w), {| clock := clock w + 1000; site := site w |}).

(** No decompression in the closed world: a gzip body does not parse. *)
Definition no_gunzip (_ : string) : option string := None.

(** Days since the epoch of a calendar date. *)
Definition days_from_civil (y m d : Z) : Z :=
  let y' := if m <=? 2 then y - 1 else y in
  let era := y' / 400 in
  let yoe := y' - era * 400 in
  let mp := (m + 9) mod 12 in
  let doy := (153 * mp + 2) / 5 + d - 1 in
  let doe := yoe * 365 + yoe / 4 - yoe / 100 + doy in
  era * 146097 + doe - 719468.

Fixpoint digits_value (acc : Z) (s : string) : option Z :=
  match s with
  | EmptyString => Some acc
  | String c rest =>
      if is_digit c then digits_value (acc * 10 + (Z.of_N (N_of_ascii c) - 48)) rest
      else None
  end.

Definition field (i j : nat) (s : string) : option Z :=
  digits_value 0 (JS.substring i j s).

(** A date parser for the closed world: it accepts [YYYY-MM-DDTHH:MM:SSZ]
    when the fields name a calendar instant, and nothing else. *)
Definition parse_iso (s : string) : option Z :=
  match field 0 4 s, field 5 7 s, field 8 10 s, field 11 13 s, field 14 16 s, field 17 19 s with
  | Some y, Some m, Some d, Some h, Some mi, Some sec =>
      let days := days_from_civil y m d in
      if (String.length s =? 20)%nat
         && (h <=? 23) && (mi <=? 59) && (sec <=? 59)
         && (fst (fst (JS.civil days)) =? y)
         && (snd (fst (JS.civil days)) =? m)
         && (snd (JS.civil days) =? d)
      then Some (JS.MakeDate days (JS.MakeTime h mi sec 0))
      else None
  | _, _, _, _, _, _ => None
  end.

Definition grib_ok : Response := {| status := 200; data := Some "GRIB....7777" |}.

(** The instant 2024-06-15T12:01:30.123Z. *)
Definition noon : Z := 1718452890123.

Definition empty_store : Store :=
  {| cachedData := None; isFetching := false; requested := [] |}.

(** Nothing answers. *)
Definition silent_world : World := {| clock := noon; site := [] |}.

(** Only the file of 11:56 answers. *)
Definition world_1156 : World :=
  {| clock := noon;
     site := [ (baseUrl ++ "MRMS_ReflectivityAtLowestAltitude_00.50_20240615-115600.grib2.gz",
                grib_ok) ] |}.

(** The listing answers with [example_listing], and its latest file answers. *)
Definition listing_world : World :=
  {| clock := noon;
     site := [ (baseUrl, {| status := 200; data := Some example_listing |});
               (baseUrl ++ "MRMS_ReflectivityAtLowestAltitude_00.50_20240101-001000.grib2.gz",
                grib_ok) ] |}.

Definition entry_0800 (fetched : Z) : Cached :=
  {| mrmData := {| timestamp := "2024-06-15T08:00:00.000Z";
                   fileUrl := baseUrl ++ "MRMS_ReflectivityAtLowestAltitude_00.50_20240615-080000.grib2.gz";
                   metadata := conus |};
     lastFetched := fetched |}.

(** An entry fetched four hours before [noon], and one fetched a minute before. *)
Definition stale_store : Store :=
  {| cachedData := Some (entry_0800 (noon - 4 * 3600000));
     isFetching := false; requested := [] |}.
Definition fresh_store : Store :=
  {| cachedData := Some (entry_0800 (noon - 60000));
     isFetching := false; requested := [] |}.

(** A refresh is running: the guard flag is set. *)
Definition busy_store : Store :=
  {| cachedData := None; isFetching := true; requested := [] |}.

Section Resolver.

(** The outside of the process: its state, the clock ([Date.now()]), one
    HTTP exchange ([None]: no response, network error or timeout), [gunzip]
    ([None]: it throws) and the date parser of [new Date(string)] ([None]:
    an invalid date). *)
Variable Env : Type.
Variable Date_now : Env -> Z.
Variable http_get : string -> Env -> option Response * Env.
Variable gunzip : string -> option string.
Variable Date_parse : string -> option Z.

(** Computations of the handler: they read and write the module variables,
    talk to the outside, and return or throw. *)
Definition M (A : Type) : Type := Store -> Env -> result A * Store * Env.

Definition ret {A} (a : A) : M A := fun s e => (Ok a, s, e).
Definition throw {A} (message : string) : M A := fun s e => (Throw message, s, e).
Definition bind {A B} (c : M A) (k : A -> M B) : M B :=
  fun s e =>
    match c s e with
    | (Ok a, s', e') => k a s' e'
    | (Throw msg, s', e') => (Throw msg, s', e')
    end.
Definition try_catch {A} (c : M A) (handler : string -> M A) : M A :=
  fun s e =>
    match c s e with
    | (Ok a, s', e') => (Ok a, s', e')
    | (Throw msg, s', e') => handler msg s' e'
    end.
Definition finally {A} (c : M A) (f : Store -> Store) : M A :=
  fun s e => match c s e with (r, s', e') => (r, f s', e') end.
Definition lift {A} (r : result A) : M A := fun s e => (r, s, e).
Definition get_store : M Store := fun s e => (Ok s, s, e).
Definition modify (f : Store -> Store) : M unit := fun s e => (Ok tt, f s, e).
Definition now_ms : M Z := fun s e => (Ok (Date_now e), s, e).

Notation "x <- c ;; k" := (bind c (fun x => k))
  (at level 100, c at next level, right associativity).
Notation "c ;;; k" := (bind c (fun _ => k))
  (at level 100, right associativity).

Definition set_cachedData (c : option Cached) (s : Store) : Store :=
  {| cachedData := c; isFetching := isFetching s; requested := requested s |}.
Definition set_isFetching (b : bool) (s : Store) : Store :=
  {| cachedData := cachedData s; isFetching := b; requested := requested s |}.
Definition note_request (url : string) (s : Store) : Store :=
  {| cachedData := cachedData s; isFetching := isFetching s;
     requested := url :: requested s |}.

(** [axios.get(url, { validateStatus })]: rejects when there is no response
    or when [validateStatus] refuses the status. *)
Definition axios_get (validateStatus : Z -> bool) (url : string) : M Response :=
  fun s e =>
    match http_get url e with
    | (Some response, e') =>
        if validateStatus (status response)
        then (Ok response, note_request url s, e')
        else (Throw ("Request failed with status code " ++ JS.String_of (status response)),
              note_request url s, e')
    | (None, e') => (Throw "Network Error", note_request url s, e')
    end.

(** The default of axios, and the one the file requests pass. *)
Definition validate_2xx (st : Z) : bool := (200 <=? st) && (st <? 300).
Definition validate_200 (st : Z) : bool := st =? 200.

Definition parseGRIB2Data (gribBuffer : string) : result Metadata :=
  let attempt :=
    match (if gzip_magic gribBuffer then gunzip gribBuffer else Some gribBuffer) with
    | None => Throw "incorrect header check"
    | Some buffer =>
        if String.eqb (toString_ascii 4 buffer) "GRIB"
        then Ok conus
        else Throw "Invalid GRIB2 file"
    end in
  match attempt with
  | Ok m => Ok m
  | Throw _ => Throw "Failed to parse GRIB2 data"
  end.

(** The first [try] block of [getLatestMRMSData]: [Some] when it returns
    from the function, [None] when control reaches the fallback (by the
    [catch] or by falling out of the [if]s). *)
Definition directory_listing : M (option MrmsData) :=
  try_catch
    (dirResponse <- axios_get validate_2xx baseUrl ;;
     html <- lift (match data dirResponse with
                   | Some h => Ok h
                   | None => Throw "html.matchAll is not a function"
                   end) ;;
     let matches := matchAll html in
     match (0 <? Z.of_nat (List.length matches)), sort by_timestamp_desc matches with
     | true, latest :: _ =>
         let latestTimestamp := m1 latest in
         let latestFile := m0 latest in
         let fileUrl := baseUrl ++ latestFile in
         response <- axios_get validate_200 fileUrl ;;
         match (if status response =? 200 then data response else None) with
         | Some bytes =>
             metadata <- lift (parseGRIB2Data bytes) ;;
             timestamp <- lift (match Date_parse (iso_of_match latestTimestamp) with
                                | Some t => Ok (JS.toISOString t)
                                | None => Throw "Invalid time value"
                                end) ;;
             ret (Some {| timestamp := timestamp; fileUrl := fileUrl;
                          metadata := metadata |})
         | None => ret None
         end
     | _, _ => ret None
     end)
    (fun dirError => ret None).

(** One pass of the body of the fallback loop for [checkTime]: [Some] when
    it returns from the function, [None] when the loop goes on. *)
Definition attempt (checkTime : Z) : M (option MrmsData) :=
  let fileUrl := fileUrl_of checkTime in
  try_catch
    (response <- axios_get validate_200 fileUrl ;;
     match (if status response =? 200 then data response else None) with
     | Some bytes =>
         metadata <- lift (parseGRIB2Data bytes) ;;
         ret (Some {| timestamp := JS.toISOString checkTime; fileUrl := fileUrl;
                      metadata := metadata |})
     | None => ret None
     end)
    (fun err => ret None).

(** [for (let minutesBack = 0; minutesBack <= 60; minutesBack += 2)] and the
    [throw] after it. [fuel] bounds the passes; 31 are enough. *)
Fixpoint fallback_loop (fuel : nat) (now minutesBack : Z) : M MrmsData :=
  if minutesBack <=? 60 then
    match fuel with
    | O => throw "fuel"
    | S fuel' =>
        r <- attempt (checkTime_of now minutesBack) ;;
        match r with
        | Some d => ret d
        | None => fallback_loop fuel' now (minutesBack + 2)
        end
    end
  else throw unavailable.

Definition fallback : M MrmsData :=
  now <- now_ms ;;
  fallback_loop 31 now 0.

Definition getLatestMRMSData : M MrmsData :=
  try_catch
    (r <- directory_listing ;;
     match r with
     | Some d => ret d
     | None => fallback
     end)
    (fun err => throw err).

Definition refreshMRMSDataInBackground : M unit :=
  s <- get_store ;;
  if isFetching s then ret tt
  else
    finally
      (try_catch
         (modify (set_isFetching true) ;;;
          mrmData <- getLatestMRMSData ;;
          lastFetched <- now_ms ;;
          modify (set_cachedData (Some {| mrmData := mrmData; lastFetched := lastFetched |})))
         (fun err => ret tt))
      (set_isFetching false).

Definition fresh (now : Z) (c : Cached) : bool := now - lastFetched c <? CACHE_DURATION.

(** [cachedData && now - cachedData.lastFetched < CACHE_DURATION] *)
Definition cache_hit (now : Z) (s : Store) : bool :=
  match cachedData s with
  | Some c => fresh now c
  | None => false
  end.

Definition getCachedOrFetchMRMSData : M Cached :=
  now <- now_ms ;;
  s <- get_store ;;
  match cachedData s, cache_hit now s with
  | Some c, true => ret c
  | _, _ =>
      refreshMRMSDataInBackground ;;;
      s' <- get_store ;;
      match cachedData s' with
      | Some c' => ret c'
      | None => throw "Failed to fetch MRMS data"
      end
  end.

(** The [try] block of [GET]. *)
Definition GET_try : M HttpResponse :=
  now <- now_ms ;;
  let timestamp0 := JS.toISOString now in
  let dataSource0 := secondary_source in
  labels <- try_catch
              (mrmData <- getCachedOrFetchMRMSData ;;
               ret (timestamp (Route.mrmData mrmData), primary_source))
              (fun err => ret (timestamp0, dataSource0)) ;;
  ret {| http_status := 200;
         body := SuccessBody (fst labels) tileUrl (snd labels)
                             conus_coverage conus_bounds |}.

(** [GET]: the response of the [try] block, or the one its [catch] builds. *)
Definition GET (s : Store) (e : Env) : HttpResponse * Store * Env :=
  match GET_try s e with
  | (Ok response, s', e') => (response, s', e')
  | (Throw errorMessage, s', e') =>
      ({| http_status := 500;
          body := ErrorBody errorMessage "Failed to fetch radar data." |}, s', e')
  end.

(** *** The walk of the fallback, in the words of the specification *)

(** The answer to a request is a successful fetch, giving [md]: there is a
    response, its status is 200, it has a body, and [parseGRIB2Data]
    accepts the bytes with [md]. Any other answer is a failed fetch: no
    response, another status, no body, or bytes that do not parse. *)
Definition fetch_succeeds (r : option Response) (md : Metadata) : Prop :=
  exists response bytes,
    r = Some response /\ status response = 200 /\
    data response = Some bytes /\ parseGRIB2Data bytes = Ok md.

Definition fetch_fails (r : option Response) : Prop :=
  forall md, ~ fetch_succeeds r md.

(** The files of the candidates [j], [j+1], ..., [j+n-1] are requested one
    after the other, from the outside [e] on, and each fetch fails; the
    outside is then [e']. *)
Inductive all_fail (now : Z) : nat -> nat -> Env -> Env -> Prop :=
| all_fail_O j e : all_fail now j 0 e e
| all_fail_S j n e e' :
    fetch_fails (fst (http_get (expected_fileUrl (candidate now j)) e)) ->
    all_fail now (S j) n (snd (http_get (expected_fileUrl (candidate now j)) e)) e' ->
    all_fail now j (S n) e e'.

(** What the fallback does from store [s] and outside [e]. Either the
    fetches of the candidates before [k] fail and the fetch of candidate
    [k] succeeds: then it returns that candidate's instant in ISO form, the
    URL of its file and the parsed bounds, having requested the files of
    the candidates 0 to [k] in that order. Or the fetches of all 31
    candidates fail: then it throws the unavailable error, having
    requested all 31 files. The cache and the guard flag are as before. *)
Inductive fallback_outcome (now : Z) (s : Store) (e : Env) :
  result MrmsData * Store * Env -> Prop :=
| accepted k md e1 s2 :
    (k < 31)%nat ->
    all_fail now 0 k e e1 ->
    fetch_succeeds (fst (http_get (expected_fileUrl (candidate now k)) e1)) md ->
    cachedData s2 = cachedData s ->
    isFetching s2 = isFetching s ->
    requested s2 = (rev (map expected_fileUrl (map (candidate now) (seq 0 (S k))))
                    ++ requested s)%list ->
    fallback_outcome now s e
      (Ok {| timestamp := JS.toISOString (candidate now k);
             fileUrl := expected_fileUrl (candidate now k);
             metadata := md |},
       s2, snd (http_get (expected_fileUrl (candidate now k)) e1))
| exhausted e1 s1 :
    all_fail now 0 31 e e1 ->
    cachedData s1 = cachedData s ->
    isFetching s1 = isFetching s ->
    requested s1 = (rev (map expected_fileUrl (candidates now)) ++ requested s)%list ->
    fallback_outcome now s e (Throw unavailable, s1, e1).

(** [fetch_succeeds], computed. *)
Definition answer_ok (r : option Response) : option Metadata :=
  match r with
  | Some response =>
      if status response =? 200 then
        match data response with
        | Some bytes =>
            match parseGRIB2Data bytes with
            | Ok md => Some md
            | Throw _ => None
            end
        | None => None
        end
      else None
  | None => None
  end.

(** *** What a computation may change *)

(** [c] relates the store and the outside before it to those after it by [R]. *)
Definition steps_by (R : Store * Env -> Store * Env -> Prop) {A} (c : M A) : Prop :=
  forall s e r s' e', c s e = (r, s', e') -> R (s, e) (s', e').

(** The module variables are as before and the request list has only grown. *)
Definition frame (w w' : Store * Env) : Prop :=
  cachedData (fst w') = cachedData (fst w) /\
  isFetching (fst w') = isFetching (fst w) /\
  exists new, requested (fst w') = (new ++ requested (fst w))%list.

(** The clock has not gone back. *)
Definition later (w w' : Store * Env) : Prop :=
  Date_now (snd w) <= Date_now (snd w').

(** No exchange moves the clock back. *)
Definition clock_monotone : Prop :=
  forall url e, Date_now e <= Date_now (snd (http_get url e)).

(** Both strategies fail from [s] and [e]. *)
Definition strategies_fail (s : Store) (e : Env) : bool :=
  match getLatestMRMSData s e with
  | (Throw _, _, _) => true
  | (Ok _, _, _) => false
  end.

(** The degraded response: status 200, [success: true], the secondary
    provider as source and the instant [now] as timestamp. *)
Definition degraded (now : Z) (r : HttpResponse) : Prop :=
  http_status r = 200 /\ success (body r) = true /\
  body_source (body r) = Some secondary_source /\
  body_timestamp (body r) = Some (JS.toISOString now).

(** C5 as the specification states it. *)
Definition degrades_whenever_strategies_fail : Prop :=
  forall s e,
    isFetching s = false -> cache_hit (Date_now e) s = false ->
    strategies_fail (set_isFetching true s) e = true ->
    degraded (Date_now e) (fst (fst (GET s e))).

(** C7 as the specification states it: of two calls that start within one
    refresh interval, at most one sends requests upstream. *)
Definition at_most_one_sequence (s : Store) (e e' : Env) : Prop :=
  let s1 := snd (fst (getCachedOrFetchMRMSData s e)) in
  let s2 := snd (fst (getCachedOrFetchMRMSData s1 e')) in
  requested s1 = requested s \/ requested s2 = requested s1.

Definition one_sequence_per_interval : Prop :=
  clock_monotone ->
  forall s e e',
    Date_now e' - Date_now e < CACHE_DURATION ->
    at_most_one_sequence s e e'.

(** The answers to the listing request that leave the first strategy with
    nothing to fetch: no response, a status outside 2xx, no text body, or a
    text in which the pattern does not match. *)
Definition listing_unusable (r : option Response) : bool :=
  match r with
  | None => true
  | Some response =>
      negb (validate_2xx (status response)) ||
      match data response with
      | None => true
      | Some html =>
          match matchAll html with
          | [] => true
          | _ :: _ => false
          end
      end
  end.

(** A computation whose result and whose effect on the outside are the
    same from any two stores. *)
Definition oblivious {A} (c : M A) : Prop :=
  forall s s' e,
    fst (fst (c s e)) = fst (fst (c s' e)) /\ snd (c s e) = snd (c s' e).

(** The URLs a computation adds to the request list, latest first. *)
Definition sends {A} (c : M A) (s : Store) (e : Env) (new : list string) : Prop :=
  requested (snd (fst (c s e))) = (new ++ requested s)%list.

(** *** Rounding and file names *)

Ltac div_lia := Z.div_mod_to_equations; lia.

Lemma floor_even_minute_bounds (t : Z) :
  floor_even_minute t <= t < floor_even_minute t + 120000.
Proof. unfold floor_even_minute. div_lia. Qed.

Lemma floor_even_minute_fields (t : Z) :
  Z.even (JS.getUTCMinutes (floor_even_minute t)) = true /\
  JS.getUTCSeconds (floor_even_minute t) = 0 /\
  JS.getUTCMilliseconds (floor_even_minute t) = 0.
Proof.
  unfold floor_even_minute, JS.getUTCMinutes, JS.getUTCSeconds,
    JS.getUTCMilliseconds, JS.MinFromTime, JS.SecFromTime, JS.msFromTime.
  set (q := t / 120000).
  replace (120000 * q / 60000) with (2 * q) by div_lia.
  replace (120000 * q / 1000) with (120 * q) by div_lia.
  split; [| split].
  - rewrite Z.even_spec. exists (q mod 30). div_lia.
  - div_lia.
  - div_lia.
Qed.

Lemma checkTime_of_rounds (now minutesBack : Z) :
  checkTime_of now minutesBack = floor_even_minute (now - minutesBack * 60000).
Proof.
  unfold checkTime_of, floor_even_minute.
  set (t := now - minutesBack * 60000).
  unfold JS.setUTCMilliseconds, JS.setUTCSeconds, JS.setUTCMinutes,
    JS.getUTCMinutes, JS.MakeDate, JS.MakeTime, JS.Day, JS.HourFromTime,
    JS.MinFromTime, JS.SecFromTime, JS.msFromTime, JS.msPerDay.
  div_lia.
Qed.


Lemma fileUrl_of_expected (t : Z) :
  JS.getUTCSeconds t = 0 -> fileUrl_of t = expected_fileUrl t.
Proof.
  intros H. unfold fileUrl_of, expected_fileUrl, timestamp_of, expected_timestamp.
  rewrite H. reflexivity.
Qed.

Lemma fileUrl_of_candidate (now : Z) (k : nat) :
  fileUrl_of (candidate now k) = expected_fileUrl (candidate now k).
Proof. apply fileUrl_of_expected, floor_even_minute_fields. Qed.

Lemma checkTime_of_candidate (now : Z) (k : nat) :
  checkTime_of now (2 * Z.of_nat k) = candidate now k.
Proof.
  rewrite checkTime_of_rounds. unfold candidate. f_equal. lia.
Qed.

(** *** One candidate *)

Lemma attempt_run (c : Z) (s : Store) (e : Env) :
  attempt c s e =
    (Ok (match answer_ok (fst (http_get (fileUrl_of c) e)) with
         | Some md => Some {| timestamp := JS.toISOString c;
                              fileUrl := fileUrl_of c; metadata := md |}
         | None => None
         end),
     note_request (fileUrl_of c) s, snd (http_get (fileUrl_of c) e)).
Proof.
  unfold attempt, try_catch, bind, axios_get, answer_ok, validate_200, lift, ret.
  destruct (http_get (fileUrl_of c) e) as [[response|] e']; cbn [fst snd]; [|reflexivity].
  destruct (status response =? 200) eqn:Hst; [|reflexivity].
  cbv beta iota. rewrite Hst.
  destruct (data response) as [bytes|]; [|reflexivity].
  destruct (parseGRIB2Data bytes); reflexivity.
Qed.

Lemma attempt_requested (c : Z) (s : Store) (e : Env) r s' e' :
  attempt c s e = (r, s', e') ->
  requested s' = fileUrl_of c :: requested s /\
  cachedData s' = cachedData s /\ isFetching s' = isFetching s.
Proof.
  rewrite attempt_run. intros H. inversion H; subst. cbn. auto.
Qed.

Lemma answer_ok_succeeds (r : option Response) (md : Metadata) :
  answer_ok r = Some md -> fetch_succeeds r md.
Proof.
  unfold answer_ok, fetch_succeeds. intros H.
  destruct r as [response|]; [| discriminate].
  destruct (status response =? 200) eqn:Hst; [| discriminate].
  destruct (data response) as [bytes|] eqn:Hd; [| discriminate].
  destruct (parseGRIB2Data bytes) as [md'|] eqn:Hp; [| discriminate].
  inversion H; subst. exists response, bytes.
  apply Z.eqb_eq in Hst. auto.
Qed.

Lemma answer_ok_fails (r : option Response) :
  answer_ok r = None -> fetch_fails r.
Proof.
  unfold answer_ok. intros H md (response & bytes & -> & Hst & Hd & Hp).
  rewrite Hst, Hd, Hp in H. discriminate.
Qed.

(** *** The loop *)

Lemma all_fail_snoc (now : Z) i n e0 e :
  all_fail now i n e0 e ->
  fetch_fails (fst (http_get (expected_fileUrl (candidate now (i + n))) e)) ->
  all_fail now i (S n) e0
    (snd (http_get (expected_fileUrl (candidate now (i + n))) e)).
Proof.
  intros H. induction H as [j e | j n e e' Hhd Htl IH]; intros Hfail.
  - rewrite Nat.add_0_r in Hfail |- *. econstructor; [eassumption | constructor].
  - econstructor; [eassumption |].
    replace (j + S n)%nat with (S j + n)%nat in * by lia.
    now apply IH.
Qed.

Lemma fallback_loop_outcome (now : Z) (fuel : nat) :
  forall j s0 e0 s e,
    (j + fuel = 31)%nat ->
    all_fail now 0 j e0 e ->
    cachedData s = cachedData s0 ->
    isFetching s = isFetching s0 ->
    requested s = (rev (map expected_fileUrl (map (candidate now) (seq 0 j)))
                   ++ requested s0)%list ->
    fallback_outcome now s0 e0 (fallback_loop fuel now (2 * Z.of_nat j) s e).
Proof.
  induction fuel as [|fuel IH]; intros j s0 e0 s e Hj Hpre Hc Hf Hreq.
  - assert (j = 31%nat) by lia. subst j. cbn.
    now apply exhausted.
  - cbn [fallback_loop].
    replace (2 * Z.of_nat j <=? 60) with true by (symmetry; apply Z.leb_le; lia).
    unfold bind at 1. rewrite checkTime_of_candidate, attempt_run.
    rewrite fileUrl_of_candidate.
    set (url := expected_fileUrl (candidate now j)).
    assert (Hreq' : requested (note_request url s)
                    = (rev (map expected_fileUrl (map (candidate now) (seq 0 (S j))))
                       ++ requested s0)%list).
    { cbn [note_request requested]. rewrite Hreq, seq_S, !map_app, rev_app_distr.
      reflexivity. }
    destruct (answer_ok (fst (http_get url e))) as [md|] eqn:Hans.
    + unfold ret. apply accepted; try assumption; try lia.
      now apply answer_ok_succeeds.
    + replace (2 * Z.of_nat j + 2) with (2 * Z.of_nat (S j)) by lia.
      apply IH; try assumption; try lia.
      apply (all_fail_snoc now 0 j e0 e Hpre).
      now apply answer_ok_fails.
Qed.

Lemma rethrow {A} (c : M A) (s : Store) (e : Env) :
  try_catch c (fun err => throw err) s e = c s e.
Proof.
  unfold try_catch, throw. destruct (c s e) as [[[a|msg] s'] e']; reflexivity.
Qed.

(** C1. When the directory listing does not produce a result, the resolver
    reads the clock and walks the 31 candidates [now], [now - 2 min], ...,
    [now - 60 min], each rounded down to the even minute with zero seconds,
    requesting the file each one names. A fetch succeeds when the request
    is answered with status 200 and a body that parses, and fails
    otherwise. The first candidate whose fetch succeeds is accepted and
    returned; a fetch that fails only moves the walk to the next older
    candidate; and the unavailable error is thrown exactly when the fetches
    of all 31 have failed. *)
Theorem fallback_walks_the_window (s : Store) (e : Env) (s1 : Store) (e1 : Env) :
  directory_listing s e = (Ok None, s1, e1) ->
  fallback_outcome (Date_now e1) s1 e1 (getLatestMRMSData s e) /\
  (forall k,
      let c := candidate (Date_now e1) k in
      c <= Date_now e1 - Z.of_nat k * 120000 < c + 120000 /\
      Z.even (JS.getUTCMinutes c) = true /\
      JS.getUTCSeconds c = 0 /\ JS.getUTCMilliseconds c = 0).
Proof.
  intros Hdir. split.
  - unfold getLatestMRMSData. rewrite rethrow.
    unfold bind at 1. rewrite Hdir.
    unfold fallback, bind, now_ms.
    apply (fallback_loop_outcome (Date_now e1) 31 0 s1 e1 s1 e1);
      try reflexivity.
    constructor.
  - intros k. cbv zeta. unfold candidate.
    split; [apply floor_even_minute_bounds | apply floor_even_minute_fields].
Qed.

(** *** The latest file of a listing *)

Lemma string_compare_trans_le (a : string) :
  forall b c, String.compare a b <> Gt -> String.compare b c <> Gt ->
              String.compare a c <> Gt.
Proof.
  induction a as [|x a IH]; intros [|y b] [|z c]; cbn; try congruence.
  unfold Ascii.compare.
  destruct (N.compare_spec (N_of_ascii x) (N_of_ascii y)) as [Exy|Lxy|Gxy];
    destruct (N.compare_spec (N_of_ascii y) (N_of_ascii z)) as [Eyz|Lyz|Gyz];
    destruct (N.compare_spec (N_of_ascii x) (N_of_ascii z)) as [Exz|Lxz|Gxz];
    try congruence; try lia.
  apply IH.
Qed.

Lemma string_leb_trans (a b c : string) :
  String.leb a b = true -> String.leb b c = true -> String.leb a c = true.
Proof.
  unfold String.leb. intros Hab Hbc.
  pose proof (string_compare_trans_le a b c) as H.
  destruct (String.compare a b), (String.compare b c), (String.compare a c);
    try reflexivity; try discriminate; exfalso; apply H; congruence.
Qed.

Lemma string_leb_refl (a : string) : String.leb a a = true.
Proof.
  unfold String.leb. pose proof (String.compare_antisym a a) as H.
  destruct (String.compare a a); [reflexivity | reflexivity | discriminate].
Qed.

Lemma sort_head_greatest (l : list RegExpMatch) :
  match sort by_timestamp_desc l with
  | [] => l = []
  | latest :: _ =>
      In latest l /\ forall m, In m l -> String.leb (m1 m) (m1 latest) = true
  end.
Proof.
  induction l as [|x l IH]; [reflexivity |].
  cbn [sort]. destruct (sort by_timestamp_desc l) as [|h t].
  - subst l. cbn. split; [auto |]. intros m [<- | []]. apply string_leb_refl.
  - destruct IH as [Hin Hmax]. cbn [insert_sorted].
    unfold by_timestamp_desc at 1, JS.localeCompare.
    destruct (String.compare (m1 h) (m1 x)) eqn:Hc.
    + split; [now left |]. intros m [<- | Hm]; [apply string_leb_refl |].
      apply string_leb_trans with (m1 h); [now apply Hmax |].
      unfold String.leb. now rewrite Hc.
    + split; [now left |]. intros m [<- | Hm]; [apply string_leb_refl |].
      apply string_leb_trans with (m1 h); [now apply Hmax |].
      unfold String.leb. now rewrite Hc.
    + split; [now right |]. intros m [<- | Hm]; [| now apply Hmax].
      unfold String.leb. rewrite String.compare_antisym, Hc. reflexivity.
Qed.

(** C2. When the listing answers with text in which the file pattern
    matches at least once, the match whose timestamp is the greatest in
    lexicographic order is selected, and its file is the one requested
    next; for the listing with 20240101-000000, 20240101-001000 and
    20240101-000500 the selected timestamp is 20240101-001000. *)
Theorem listing_selects_greatest_timestamp :
  (forall (s : Store) (e : Env) (st : Z) (html : string) (e1 : Env),
      http_get baseUrl e = (Some {| status := st; data := Some html |}, e1) ->
      validate_2xx st = true ->
      matchAll html <> [] ->
      exists latest,
        hd_error (sort by_timestamp_desc (matchAll html)) = Some latest /\
        In latest (matchAll html) /\
        (forall m, In m (matchAll html) -> String.leb (m1 m) (m1 latest) = true) /\
        requested (snd (fst (directory_listing s e)))
          = (baseUrl ++ m0 latest) :: baseUrl :: requested s) /\
  hd_error (sort by_timestamp_desc (matchAll example_listing))
    = Some {| m0 := "MRMS_ReflectivityAtLowestAltitude_00.50_20240101-001000.grib2.gz";
              m1 := "20240101-001000" |}.
Proof.
  split; [| vm_compute; reflexivity].
  intros s e st html e1 Hget Hst Hne.
  pose proof (sort_head_greatest (matchAll html)) as Hsort.
  destruct (sort by_timestamp_desc (matchAll html)) as [|latest rest] eqn:Hs;
    [contradiction |].
  destruct Hsort as [Hin Hmax].
  exists latest. repeat split; try assumption.
  unfold directory_listing, try_catch, bind, axios_get, lift, ret.
  rewrite Hget. cbn [status data]. rewrite Hst.
  cbv beta iota zeta. cbn [status data]. cbv beta iota zeta. rewrite Hs.
  replace (0 <? Z.of_nat (List.length (matchAll html))) with true.
  2:{ symmetry. apply Z.ltb_lt. destruct (matchAll html); [contradiction | cbn; lia]. }
  destruct (http_get (baseUrl ++ m0 latest) e1) as [[response|] e2]; [| reflexivity].
  destruct (validate_200 (status response)); [| reflexivity].
  cbv beta iota.
  destruct (if status response =? 200 then data response else None) as [bytes|];
    [| reflexivity].
  destruct (parseGRIB2Data bytes); [| reflexivity].
  destruct (Date_parse (iso_of_match (m1 latest))); reflexivity.
Qed.

(** *** Frames *)

Section Steps.

Variable R : Store * Env -> Store * Env -> Prop.
Hypothesis R_refl : forall w, R w w.
Hypothesis R_trans : forall w1 w2 w3, R w1 w2 -> R w2 w3 -> R w1 w3.
Hypothesis R_axios : forall v url, steps_by R (axios_get v url).

Lemma steps_ret {A} (a : A) : steps_by R (ret a).
Proof. intros s e r s' e' H. inversion H; subst. apply R_refl. Qed.

Lemma steps_throw {A} (msg : string) : steps_by R (@throw A msg).
Proof. intros s e r s' e' H. inversion H; subst. apply R_refl. Qed.

Lemma steps_lift {A} (x : result A) : steps_by R (lift x).
Proof. intros s e r s' e' H. inversion H; subst. apply R_refl. Qed.

Lemma steps_now : steps_by R now_ms.
Proof. intros s e r s' e' H. inversion H; subst. apply R_refl. Qed.

Lemma steps_bind {A B} (c : M A) (k : A -> M B) :
  steps_by R c -> (forall a, steps_by R (k a)) -> steps_by R (bind c k).
Proof.
  intros Hc Hk s e r s' e' H. unfold bind in H.
  destruct (c s e) as [[[a|msg] s1] e1] eqn:Hce.
  - eapply R_trans; [eapply Hc; eassumption | eapply Hk; eassumption].
  - inversion H; subst. eapply Hc; eassumption.
Qed.

Lemma steps_try_catch {A} (c : M A) (h : string -> M A) :
  steps_by R c -> (forall msg, steps_by R (h msg)) -> steps_by R (try_catch c h).
Proof.
  intros Hc Hh s e r s' e' H. unfold try_catch in H.
  destruct (c s e) as [[[a|msg] s1] e1] eqn:Hce.
  - inversion H; subst. eapply Hc; eassumption.
  - eapply R_trans; [eapply Hc; eassumption | eapply Hh; eassumption].
Qed.

Ltac steps :=
  repeat first
    [ apply steps_ret | apply steps_throw | apply steps_lift | apply steps_now
    | apply R_axios
    | apply steps_bind; [| intros ?]
    | apply steps_try_catch; [| intros ?]
    | match goal with
      | |- steps_by _ (match ?x with _ => _ end) => destruct x
      end ].

Lemma steps_directory_listing : steps_by R directory_listing.
Proof. unfold directory_listing. cbv zeta. steps. Qed.

Lemma steps_attempt (c : Z) : steps_by R (attempt c).
Proof. unfold attempt. cbv zeta. steps. Qed.

Lemma steps_fallback_loop (now : Z) (fuel : nat) :
  forall minutesBack, steps_by R (fallback_loop fuel now minutesBack).
Proof.
  induction fuel as [|fuel IH]; intros minutesBack; cbn [fallback_loop];
    destruct (minutesBack <=? 60); try apply steps_throw.
  apply steps_bind; [apply steps_attempt |].
  intros [d|]; [apply steps_ret | apply IH].
Qed.

Lemma steps_getLatestMRMSData : steps_by R getLatestMRMSData.
Proof.
  unfold getLatestMRMSData, fallback.
  apply steps_try_catch; [| intros; apply steps_throw].
  apply steps_bind; [apply steps_directory_listing |].
  intros [d|]; [apply steps_ret |].
  apply steps_bind; [apply steps_now | intros; apply steps_fallback_loop].
Qed.

End Steps.

Lemma frame_refl (w : Store * Env) : frame w w.
Proof. repeat split. now exists []. Qed.

Lemma frame_trans (w1 w2 w3 : Store * Env) : frame w1 w2 -> frame w2 w3 -> frame w1 w3.
Proof.
  intros (Hc & Hf & n1 & H1) (Hc' & Hf' & n2 & H2).
  repeat split; try congruence.
  exists (n2 ++ n1)%list. rewrite H2, H1. apply app_assoc.
Qed.

Lemma frame_axios (v : Z -> bool) (url : string) : steps_by frame (axios_get v url).
Proof.
  intros s e r s' e' H. unfold axios_get in H.
  destruct (http_get url e) as [[response|] e1];
    [destruct (v (status response)) |];
    inversion H; subst; repeat split; now exists [url].
Qed.

Lemma later_axios (Hmono : clock_monotone) (v : Z -> bool) (url : string) :
  steps_by later (axios_get v url).
Proof.
  intros s e r s' e' H. unfold axios_get in H. unfold later. cbn [snd].
  pose proof (Hmono url e) as Hle.
  destruct (http_get url e) as [[response|] e1];
    [destruct (v (status response)) |];
    inversion H; subst; exact Hle.
Qed.

Lemma getLatestMRMSData_frame (s : Store) (e : Env) r s' e' :
  getLatestMRMSData s e = (r, s', e') -> frame (s, e) (s', e').
Proof.
  apply (steps_getLatestMRMSData frame frame_refl frame_trans frame_axios).
Qed.

Lemma getLatestMRMSData_later (Hmono : clock_monotone) (s : Store) (e : Env) r s' e' :
  getLatestMRMSData s e = (r, s', e') -> Date_now e <= Date_now e'.
Proof.
  apply (steps_getLatestMRMSData later).
  - intros w. unfold later. lia.
  - intros w1 w2 w3. unfold later. lia.
  - apply later_axios, Hmono.
Qed.

(** *** The cache *)

Lemma refresh_run (s : Store) (e : Env) :
  refreshMRMSDataInBackground s e =
    if isFetching s then (Ok tt, s, e)
    else
      match getLatestMRMSData (set_isFetching true s) e with
      | (Ok d, s1, e1) =>
          (Ok tt,
           set_isFetching false
             (set_cachedData (Some {| mrmData := d; lastFetched := Date_now e1 |}) s1),
           e1)
      | (Throw _, s1, e1) => (Ok tt, set_isFetching false s1, e1)
      end.
Proof.
  unfold refreshMRMSDataInBackground, bind at 1, get_store.
  destruct (isFetching s); [reflexivity |].
  unfold finally, try_catch, bind, modify, now_ms, ret.
  destruct (getLatestMRMSData (set_isFetching true s) e) as [[[d|msg] s1] e1];
    reflexivity.
Qed.

Lemma resolve_hit (s : Store) (e : Env) (c : Cached) :
  cachedData s = Some c -> fresh (Date_now e) c = true ->
  getCachedOrFetchMRMSData s e = (Ok c, s, e).
Proof.
  intros Hc Hf. unfold getCachedOrFetchMRMSData, bind, now_ms, get_store, cache_hit, ret.
  rewrite Hc, Hf. reflexivity.
Qed.

Lemma resolve_miss (s : Store) (e : Env) :
  cache_hit (Date_now e) s = false ->
  getCachedOrFetchMRMSData s e =
    match refreshMRMSDataInBackground s e with
    | (_, s1, e1) =>
        match cachedData s1 with
        | Some c => (Ok c, s1, e1)
        | None => (Throw "Failed to fetch MRMS data", s1, e1)
        end
    end.
Proof.
  intros Hmiss.
  unfold getCachedOrFetchMRMSData, bind at 1, now_ms, bind at 1, get_store.
  rewrite Hmiss.
  assert (Hgo : forall k : M Cached,
             match cachedData s with Some c => k | None => k end = k)
    by (intros; destruct (cachedData s); reflexivity).
  rewrite Hgo. unfold bind, ret, throw.
  rewrite refresh_run.
  destruct (isFetching s).
  - destruct (cachedData s); reflexivity.
  - destruct (getLatestMRMSData (set_isFetching true s) e) as [[[d|msg] s1] e1]; cbn.
    + reflexivity.
    + destruct (cachedData s1); reflexivity.
Qed.

Lemma refresh_returns (s : Store) (e : Env) :
  exists s' e', refreshMRMSDataInBackground s e = (Ok tt, s', e').
Proof.
  rewrite refresh_run. destruct (isFetching s); [now eexists _, _ |].
  destruct (getLatestMRMSData (set_isFetching true s) e) as [[[d|msg] s1] e1];
    now eexists _, _.
Qed.

(** C3. With a cache entry younger than the refresh interval, the resolver
    returns that entry at once: the module variables, the request list and
    the outside are what they were, so no request was sent. *)
Theorem fresh_cache_is_served_without_requests (s : Store) (e : Env) (c : Cached) :
  cachedData s = Some c ->
  Date_now e - lastFetched c < CACHE_DURATION ->
  getCachedOrFetchMRMSData s e = (Ok c, s, e).
Proof.
  intros Hc Hage. apply resolve_hit; [assumption |].
  unfold fresh. now apply Z.ltb_lt.
Qed.

(** C4. After a refresh the cache slot is either what it was (a refresh
    already running, or both strategies failed) or the whole new entry: the
    complete result of the resolver with the clock read after it. A refresh
    never throws. *)
Theorem refresh_replaces_whole_entry_or_nothing (s : Store) (e : Env) :
  exists s' e',
    refreshMRMSDataInBackground s e = (Ok tt, s', e') /\
    ((cachedData s' = cachedData s /\
      (isFetching s = true \/ strategies_fail (set_isFetching true s) e = true))
     \/
     (exists d s1,
        isFetching s = false /\
        getLatestMRMSData (set_isFetching true s) e = (Ok d, s1, e') /\
        cachedData s' = Some {| mrmData := d; lastFetched := Date_now e' |})).
Proof.
  rewrite refresh_run. unfold strategies_fail.
  destruct (isFetching s) eqn:Hf.
  - exists s, e. split; [reflexivity |]. left. auto.
  - destruct (getLatestMRMSData (set_isFetching true s) e) as [[[d|msg] s1] e1] eqn:Hget.
    + eexists _, e1. split; [reflexivity |]. right. exists d, s1. cbn. auto.
    + eexists _, e1. split; [reflexivity |]. left. cbn. split; [| auto].
      apply getLatestMRMSData_frame in Hget. destruct Hget as (Hc & _). exact Hc.
Qed.

(** *** The endpoint *)

Lemma GET_run (s : Store) (e : Env) :
  GET s e =
    match getCachedOrFetchMRMSData s e with
    | (Ok c, s', e') =>
        ({| http_status := 200;
            body := SuccessBody (timestamp (mrmData c)) tileUrl primary_source
                                conus_coverage conus_bounds |}, s', e')
    | (Throw _, s', e') =>
        ({| http_status := 200;
            body := SuccessBody (JS.toISOString (Date_now e)) tileUrl secondary_source
                                conus_coverage conus_bounds |}, s', e')
    end.
Proof.
  unfold GET, GET_try, bind, try_catch, now_ms, ret.
  destruct (getCachedOrFetchMRMSData s e) as [[[c|msg] s'] e']; reflexivity.
Qed.

(** C5, amended. Every response has status 200 and [success: true]: the
    resolver's error does not reach the caller. When both strategies fail
    and the cache is empty, the source is the secondary provider and the
    timestamp is the clock as read when the handler started; when both fail
    and an entry, however old, is in the cache, that entry's timestamp is
    served under the primary label. *)
Theorem endpoint_degrades_when_nothing_is_cached (s : Store) (e : Env) :
  let response := fst (fst (GET s e)) in
  http_status response = 200 /\
  success (body response) = true /\
  (strategies_fail (set_isFetching true s) e = true ->
   (cachedData s = None -> degraded (Date_now e) response) /\
   (forall c, cachedData s = Some c -> fresh (Date_now e) c = false ->
              body_source (body response) = Some primary_source /\
              body_timestamp (body response) = Some (timestamp (mrmData c)))).
Proof.
  cbv zeta. rewrite GET_run.
  split; [| split].
  - destruct (getCachedOrFetchMRMSData s e) as [[[c|msg] s'] e']; reflexivity.
  - destruct (getCachedOrFetchMRMSData s e) as [[[c|msg] s'] e']; reflexivity.
  - intros Hfail. unfold strategies_fail in Hfail.
    assert (Hmiss : forall s1 e1,
               refreshMRMSDataInBackground s e = (Ok tt, s1, e1) ->
               cachedData s1 = cachedData s).
    { intros s1 e1. rewrite refresh_run. destruct (isFetching s).
      - intros H; inversion H; subst; reflexivity.
      - destruct (getLatestMRMSData (set_isFetching true s) e)
          as [[[d|msg] sa] ea] eqn:Hget; [discriminate |].
        intros H; inversion H; subst. cbn.
        apply getLatestMRMSData_frame in Hget. apply Hget. }
    destruct (refresh_returns s e) as (s1 & e1 & Hrun).
    specialize (Hmiss s1 e1 Hrun).
    split.
    + intros Hnone. rewrite resolve_miss by (unfold cache_hit; now rewrite Hnone).
      rewrite Hrun, Hmiss, Hnone. repeat split.
    + intros c Hc Hstale. rewrite resolve_miss by (unfold cache_hit; now rewrite Hc).
      rewrite Hrun, Hmiss, Hc. split; reflexivity.
Qed.

(** C6. Whatever the store and the outside, the response carries the tile
    template of the secondary provider, the CONUS bounds 50, 20, -60, -130
    and the CONUS coverage string; the template is not under the base URL
    of the primary dataset. *)
Theorem endpoint_fixed_fields (s : Store) (e : Env) :
  let response := fst (fst (GET s e)) in
  body_tile_url (body response) = Some tileUrl /\
  body_bounds (body response)
    = Some {| north := 50; south := 20; east := -60; west := -130 |} /\
  body_coverage (body response) = Some conus_coverage /\
  String.prefix baseUrl tileUrl = false.
Proof.
  cbv zeta. rewrite GET_run.
  destruct (getCachedOrFetchMRMSData s e) as [[[c|msg] s'] e']; repeat split.
Qed.

(** C7, amended. Two calls of the resolver that start within one refresh
    interval, on a clock that does not go back: if the refresh the first
    call attempts (when it attempts one) succeeds, at most one of the two
    calls sends requests upstream. *)
Theorem one_sequence_when_refresh_succeeds (s : Store) (e e' : Env) :
  clock_monotone ->
  Date_now e' - Date_now e < CACHE_DURATION ->
  (cache_hit (Date_now e) s = false -> isFetching s = false ->
   strategies_fail (set_isFetching true s) e = false) ->
  at_most_one_sequence s e e'.
Proof.
  intros Hmono Hnear Hok. unfold at_most_one_sequence. cbv zeta.
  destruct (cache_hit (Date_now e) s) eqn:Hhit.
  - left. unfold cache_hit in Hhit.
    destruct (cachedData s) as [c|] eqn:Hc; [| discriminate].
    now rewrite (resolve_hit s e c Hc Hhit).
  - rewrite (resolve_miss s e Hhit), refresh_run.
    destruct (isFetching s) eqn:Hf.
    + left. destruct (cachedData s); reflexivity.
    + specialize (Hok eq_refl eq_refl). unfold strategies_fail in Hok.
      destruct (getLatestMRMSData (set_isFetching true s) e)
        as [[[d|msg] sa] ea] eqn:Hget; [| discriminate].
      right. cbn [fst snd].
      apply (getLatestMRMSData_later Hmono) in Hget.
      erewrite resolve_hit; [reflexivity | reflexivity |].
      unfold fresh. apply Z.ltb_lt. cbn [lastFetched]. lia.
Qed.

(** *** The file pattern and the sort, beyond the head *)

Lemma string_app_assoc (a b c : string) : (a ++ b) ++ c = a ++ (b ++ c).
Proof. induction a as [|x a IH]; cbn; [reflexivity | now rewrite IH]. Qed.

Lemma string_length_app (a b : string) :
  String.length (a ++ b) = (String.length a + String.length b)%nat.
Proof. induction a as [|x a IH]; cbn; [reflexivity | now rewrite IH]. Qed.

Lemma take_literal_spec (lit : string) :
  forall s rest, take_literal lit s = Some rest -> s = lit ++ rest.
Proof.
  induction lit as [|c lit IH]; intros s rest H; cbn in H.
  - inversion H. reflexivity.
  - destruct s as [|d s]; [discriminate |].
    destruct (Ascii.eqb c d) eqn:Hcd; [| discriminate].
    apply Ascii.eqb_eq in Hcd. subst d. cbn. f_equal. now apply IH.
Qed.

Lemma take_literal_app (lit s : string) : take_literal lit (lit ++ s) = Some s.
Proof.
  induction lit as [|c lit IH]; cbn; [reflexivity |].
  now rewrite Ascii.eqb_refl.
Qed.

Lemma take_digits_spec (n : nat) :
  forall s ds rest,
    take_digits n s = Some (ds, rest) ->
    s = ds ++ rest /\ String.length ds = n /\ all_digits ds = true.
Proof.
  induction n as [|n IH]; intros s ds rest H; cbn in H.
  - inversion H. subst. auto.
  - destruct s as [|c s]; [discriminate |].
    destruct (is_digit c) eqn:Hc; [| discriminate].
    destruct (take_digits n s) as [[ds' rest']|] eqn:Hrec; [| discriminate].
    inversion H; subst.
    destruct (IH _ _ _ Hrec) as (-> & Hlen & Hall).
    cbn. rewrite Hc, Hall, Hlen. auto.
Qed.

Lemma take_digits_app (ds s : string) :
  all_digits ds = true -> take_digits (String.length ds) (ds ++ s) = Some (ds, s).
Proof.
  induction ds as [|c ds IH]; cbn; [reflexivity |].
  intros H. apply andb_prop in H as [Hc Hall].
  now rewrite Hc, IH.
Qed.

Lemma match_here_spec (s : string) (m : RegExpMatch) :
  match_here s = Some m ->
  exists d8 d6 rest,
    s = m0 m ++ rest /\
    m0 m = file_prefix ++ m1 m ++ file_suffix /\
    m1 m = d8 ++ "-" ++ d6 /\
    String.length d8 = 8%nat /\ String.length d6 = 6%nat /\
    all_digits d8 = true /\ all_digits d6 = true.
Proof.
  unfold match_here. intros H.
  destruct (take_literal file_prefix s) as [r1|] eqn:H1; [| discriminate].
  destruct (take_digits 8 r1) as [[d8 r2]|] eqn:H2; [| discriminate].
  destruct (take_literal "-" r2) as [r3|] eqn:H3; [| discriminate].
  destruct (take_digits 6 r3) as [[d6 r4]|] eqn:H4; [| discriminate].
  destruct (take_literal file_suffix r4) as [r5|] eqn:H5; [| discriminate].
  assert (Hm : m = {| m0 := file_prefix ++ (d8 ++ "-" ++ d6) ++ file_suffix;
                      m1 := d8 ++ "-" ++ d6 |}) by congruence.
  clear H. subst m. unfold m0, m1.
  apply take_literal_spec in H1, H3, H5.
  apply take_digits_spec in H2 as (E2 & L2 & A2), H4 as (E4 & L4 & A4).
  exists d8, d6, r5. repeat split; try assumption.
  subst s r1 r2 r3 r4.
  now rewrite !string_app_assoc.
Qed.

Lemma match_length (s : string) (m : RegExpMatch) :
  match_here s = Some m -> String.length (m0 m) = 64%nat.
Proof.
  intros H. destruct (match_here_spec s m H)
    as (d8 & d6 & rest & _ & E0 & E1 & L8 & L6 & _).
  rewrite E0, E1, !string_length_app, L8, L6. reflexivity.
Qed.

Lemma matchAll_from_In (s : string) :
  forall k m,
    In m (matchAll_from k s) ->
    exists pre post, s = pre ++ m0 m ++ post /\ match_here (m0 m ++ post) = Some m.
Proof.
  induction s as [|c s IH]; intros k m Hin; [contradiction |].
  cbn [matchAll_from] in Hin.
  assert (Hlater : forall k', In m (matchAll_from k' s) ->
            exists pre post, String c s = pre ++ m0 m ++ post /\
                             match_here (m0 m ++ post) = Some m).
  { intros k' H. destruct (IH k' m H) as (pre & post & -> & Hm).
    exists (String c pre), post. split; [reflexivity | assumption]. }
  destruct k as [|k]; [| now apply (Hlater k)].
  destruct (match_here (String c s)) as [m'|] eqn:Hhere; [| now apply (Hlater 0%nat)].
  destruct Hin as [<- | Hin]; [| now apply (Hlater _ Hin)].
  destruct (match_here_spec _ _ Hhere) as (d8 & d6 & rest & Hs & _).
  exists EmptyString, rest. cbn [append]. split; [assumption |].
  now rewrite <- Hs.
Qed.

(** X1. Every match of the file pattern in a text is a piece of that
    text, 64 characters long: the fixed prefix, a timestamp of eight
    digits, a hyphen and six digits (the group), and the fixed suffix. *)
Theorem matches_are_file_names (html : string) (m : RegExpMatch) :
  In m (matchAll html) ->
  (exists pre post, html = pre ++ m0 m ++ post) /\
  m0 m = file_prefix ++ m1 m ++ file_suffix /\
  timestamp_shaped (m1 m) /\
  String.length (m0 m) = 64%nat /\ String.length (m1 m) = 15%nat.
Proof.
  intros Hin. destruct (matchAll_from_In html 0 m Hin) as (pre & post & Hs & Hm).
  destruct (match_here_spec _ _ Hm) as (d8 & d6 & rest & _ & E0 & E1 & L8 & L6 & A8 & A6).
  repeat split.
  - now exists pre, post.
  - assumption.
  - now exists d8, d6.
  - now apply match_length in Hm.
  - rewrite E1, !string_length_app, L8, L6. reflexivity.
Qed.

(** X2. A file name built as the prefix, eight digits, a hyphen, six
    digits and the suffix is recognised where it starts, whatever follows
    it: it is the first match of the text and its group is the timestamp. *)
Theorem file_name_is_recognised (d8 d6 rest : string) :
  String.length d8 = 8%nat -> String.length d6 = 6%nat ->
  all_digits d8 = true -> all_digits d6 = true ->
  let ts := d8 ++ "-" ++ d6 in
  let name := file_prefix ++ ts ++ file_suffix in
  match_here (name ++ rest) = Some {| m0 := name; m1 := ts |} /\
  hd_error (matchAll (name ++ rest)) = Some {| m0 := name; m1 := ts |}.
Proof.
  intros L8 L6 A8 A6. cbv zeta.
  assert (Hhere : match_here ((file_prefix ++ (d8 ++ "-" ++ d6) ++ file_suffix) ++ rest)
                  = Some {| m0 := file_prefix ++ (d8 ++ "-" ++ d6) ++ file_suffix;
                            m1 := d8 ++ "-" ++ d6 |}).
  { replace ((file_prefix ++ (d8 ++ "-" ++ d6) ++ file_suffix) ++ rest)
      with (file_prefix ++ d8 ++ "-" ++ d6 ++ file_suffix ++ rest)
      by (now rewrite !string_app_assoc).
    unfold match_here. rewrite take_literal_app.
    rewrite <- L8 at 1. rewrite (take_digits_app d8 _ A8).
    rewrite (take_literal_app "-").
    rewrite <- L6 at 1. rewrite (take_digits_app d6 _ A6).
    rewrite take_literal_app. reflexivity. }
  split; [exact Hhere |].
  unfold matchAll.
  destruct ((file_prefix ++ (d8 ++ "-" ++ d6) ++ file_suffix) ++ rest) as [|c s] eqn:Hs;
    [discriminate |].
  cbn [matchAll_from]. rewrite Hhere. reflexivity.
Qed.

Lemma matchAll_from_bound (s : string) :
  forall k, (64 * List.length (matchAll_from k s) <= String.length s - k)%nat.
Proof.
  induction s as [|c s IH]; intros k; [cbn; lia |].
  cbn [matchAll_from String.length].
  destruct k as [|k]; [| specialize (IH k); lia].
  destruct (match_here (String c s)) as [m|] eqn:Hhere.
  - rewrite (match_length _ _ Hhere). change (64 - 1)%nat with 63%nat.
    cbn [List.length].
    destruct (match_here_spec _ _ Hhere) as (d8 & d6 & rest & Hs & _).
    apply (f_equal String.length) in Hs.
    rewrite string_length_app, (match_length _ _ Hhere) in Hs.
    cbn [String.length] in Hs.
    specialize (IH 63%nat). lia.
  - specialize (IH 0%nat). lia.
Qed.

(** X3. The matches of a text do not overlap: a text of [n] characters
    has at most [n / 64] of them, and a text shorter than one file name
    has none. *)
Theorem matches_do_not_overlap (html : string) :
  (64 * List.length (matchAll html) <= String.length html)%nat /\
  ((String.length html < 64)%nat -> matchAll html = []).
Proof.
  pose proof (matchAll_from_bound html 0) as H. unfold matchAll.
  split; [lia |].
  intros Hshort. destruct (matchAll_from 0 html); [reflexivity | cbn in H; lia].
Qed.

Lemma desc_trans (a b c : RegExpMatch) : desc a b -> desc b c -> desc a c.
Proof. unfold desc. intros Hab Hbc. now apply string_leb_trans with (m1 b). Qed.

Lemma insert_sorted_perm cmp (x : RegExpMatch) (l : list RegExpMatch) :
  Permutation (insert_sorted cmp x l) (x :: l).
Proof.
  induction l as [|y l IH]; cbn; [apply Permutation_refl |].
  destruct (cmp x y); try apply Permutation_refl.
  eapply Permutation_trans; [apply perm_skip, IH | apply perm_swap].
Qed.

Lemma insert_sorted_hd (a x : RegExpMatch) (l : list RegExpMatch) :
  desc a x -> HdRel desc a l -> HdRel desc a (insert_sorted by_timestamp_desc x l).
Proof.
  intros Hax Hal. destruct l as [|y l]; cbn; [now constructor |].
  destruct (by_timestamp_desc x y); constructor; try assumption.
  now inversion Hal.
Qed.

Lemma insert_sorted_sorted (x : RegExpMatch) (l : list RegExpMatch) :
  Sorted desc l -> Sorted desc (insert_sorted by_timestamp_desc x l).
Proof.
  induction l as [|y l IH]; intros Hl; cbn; [repeat constructor |].
  inversion Hl as [| ? ? Hs Hh]; subst.
  unfold by_timestamp_desc at 1, JS.localeCompare.
  destruct (String.compare (m1 y) (m1 x)) eqn:Hc.
  - constructor; [assumption |]. constructor. unfold desc, String.leb. now rewrite Hc.
  - constructor; [assumption |]. constructor. unfold desc, String.leb. now rewrite Hc.
  - constructor; [now apply IH |].
    apply insert_sorted_hd; [| assumption].
    unfold desc, String.leb. rewrite String.compare_antisym, Hc. reflexivity.
Qed.

(** X4. The sort of the matches keeps every match, as many times as it
    occurs, and puts them in descending order of timestamp: each match's
    timestamp is at least that of every match after it. *)
Theorem sort_is_a_descending_permutation (l : list RegExpMatch) :
  Permutation (sort by_timestamp_desc l) l /\
  StronglySorted desc (sort by_timestamp_desc l).
Proof.
  split.
  - induction l as [|x l IH]; cbn; [constructor |].
    eapply Permutation_trans; [apply insert_sorted_perm | now apply perm_skip].
  - apply Sorted_StronglySorted; [exact desc_trans |].
    induction l as [|x l IH]; cbn; [constructor | now apply insert_sorted_sorted].
Qed.

(** *** The resolver, beyond the fallback *)

Lemma reads_GRIB_length (buffer : string) :
  toString_ascii 4 buffer = "GRIB" -> (4 <= String.length buffer)%nat.
Proof.
  destruct buffer as [|c0 [|c1 [|c2 [|c3 rest]]]]; cbn; try discriminate.
  intros _. lia.
Qed.

(** X5. [parseGRIB2Data] succeeds only on a buffer that, after the
    decompression a gzip header calls for, has at least four bytes reading
    GRIB in 7-bit ASCII; the bounds it returns are the CONUS constants
    whatever the rest of the buffer holds; and every failure, that of
    [gunzip] included, is thrown under the one message. *)
Theorem parseGRIB2Data_outcomes (gribBuffer : string) :
  (forall md, parseGRIB2Data gribBuffer = Ok md ->
     md = conus /\
     exists buffer,
       (if gzip_magic gribBuffer then gunzip gribBuffer else Some gribBuffer)
         = Some buffer /\
       toString_ascii 4 buffer = "GRIB" /\ (4 <= String.length buffer)%nat) /\
  (forall msg, parseGRIB2Data gribBuffer = Throw msg ->
     msg = "Failed to parse GRIB2 data").
Proof.
  unfold parseGRIB2Data.
  destruct (if gzip_magic gribBuffer then gunzip gribBuffer else Some gribBuffer)
    as [buffer|].
  - destruct (String.eqb (toString_ascii 4 buffer) "GRIB") eqn:Hg.
    + apply String.eqb_eq in Hg. split; [| discriminate].
      intros md H. inversion H. split; [reflexivity |].
      exists buffer. repeat split; [assumption | now apply reads_GRIB_length].
    + split; [discriminate |]. intros msg H. now inversion H.
  - split; [discriminate |]. intros msg H. now inversion H.
Qed.

(** X6. When the listing request gets no response, a status outside 2xx,
    no text, or a text without a match, the first strategy ends after that
    one request and hands over to the fallback; it never throws. *)
Theorem unusable_listing_costs_one_request (s : Store) (e : Env) :
  listing_unusable (fst (http_get baseUrl e)) = true ->
  directory_listing s e = (Ok None, note_request baseUrl s, snd (http_get baseUrl e)).
Proof.
  unfold listing_unusable, directory_listing, try_catch, bind, axios_get, lift, ret.
  destruct (http_get baseUrl e) as [[response|] e1]; cbn [fst snd]; [| reflexivity].
  destruct (validate_2xx (status response)); cbn [negb orb]; [| reflexivity].
  destruct (data response) as [html|]; [| reflexivity].
  cbv zeta. destruct (matchAll html) as [|m ms]; [| discriminate].
  reflexivity.
Qed.

(** X7. When the listing answers, its latest file answers with status
    200 and bytes that parse, and the matched timestamp is a valid date,
    the resolver returns that date in ISO form, the URL of that file and
    the parsed bounds after exactly these two requests: the fallback is
    not entered. *)
Theorem listing_strategy_resolves (s : Store) (e e1 e2 : Env) (st : Z)
  (html bytes : string) (latest : RegExpMatch) (rest : list RegExpMatch)
  (md : Metadata) (t : Z) :
  http_get baseUrl e = (Some {| status := st; data := Some html |}, e1) ->
  validate_2xx st = true ->
  sort by_timestamp_desc (matchAll html) = latest :: rest ->
  http_get (baseUrl ++ m0 latest) e1
    = (Some {| status := 200; data := Some bytes |}, e2) ->
  parseGRIB2Data bytes = Ok md ->
  Date_parse (iso_of_match (m1 latest)) = Some t ->
  getLatestMRMSData s e
    = (Ok {| timestamp := JS.toISOString t; fileUrl := baseUrl ++ m0 latest;
             metadata := md |},
       note_request (baseUrl ++ m0 latest) (note_request baseUrl s), e2).
Proof.
  intros Hget Hst Hsort Hfile Hparse Hdate.
  assert (Hne : (0 <? Z.of_nat (List.length (matchAll html))) = true).
  { apply Z.ltb_lt. destruct (matchAll html); [discriminate | cbn; lia]. }
  unfold getLatestMRMSData. rewrite rethrow.
  unfold bind at 1.
  assert (Hdir : directory_listing s e
                 = (Ok (Some {| timestamp := JS.toISOString t;
                                fileUrl := baseUrl ++ m0 latest; metadata := md |}),
                    note_request (baseUrl ++ m0 latest) (note_request baseUrl s), e2)).
  { unfold directory_listing, try_catch, bind, axios_get, lift, ret.
    rewrite Hget. cbn [status data]. rewrite Hst.
    cbv beta iota zeta. cbn [status data]. cbv beta iota zeta.
    rewrite Hne, Hsort, Hfile. cbn [status data validate_200 Z.eqb Pos.eqb].
    cbv beta iota. cbn [status data Z.eqb Pos.eqb]. rewrite Hparse, Hdate.
    reflexivity. }
  rewrite Hdir. reflexivity.
Qed.

Lemma directory_listing_sends (s : Store) (e : Env) :
  exists new,
    sends directory_listing s e new /\
    (new = [baseUrl] \/ exists u, new = [u; baseUrl]).
Proof.
  unfold sends, directory_listing, try_catch, bind, axios_get, lift, ret.
  destruct (http_get baseUrl e) as [[response|] e1];
    [| exists [baseUrl]; split; [reflexivity | now left]].
  destruct (validate_2xx (status response));
    [| exists [baseUrl]; split; [reflexivity | now left]].
  destruct (data response) as [html|];
    [| exists [baseUrl]; split; [reflexivity | now left]].
  cbv zeta.
  destruct (0 <? Z.of_nat (List.length (matchAll html)));
    [| exists [baseUrl]; split; [reflexivity | now left]].
  destruct (sort by_timestamp_desc (matchAll html)) as [|latest rest];
    [exists [baseUrl]; split; [reflexivity | now left] |].
  exists [baseUrl ++ m0 latest; baseUrl]. split; [| right; now eexists].
  destruct (http_get (baseUrl ++ m0 latest) e1) as [[file|] e2]; [| reflexivity].
  destruct (validate_200 (status file)); [| reflexivity].
  cbv beta iota.
  destruct (if status file =? 200 then data file else None) as [bytes|];
    [| reflexivity].
  destruct (parseGRIB2Data bytes); [| reflexivity].
  destruct (Date_parse (iso_of_match (m1 latest))); reflexivity.
Qed.

Lemma fallback_loop_sends (now : Z) (fuel : nat) :
  forall minutesBack s e,
  exists new,
    sends (fallback_loop fuel now minutesBack) s e new /\
    (List.length new <= fuel)%nat.
Proof.
  unfold sends.
  induction fuel as [|fuel IH]; intros minutesBack s e; cbn [fallback_loop];
    destruct (minutesBack <=? 60);
    try (exists []; split; [reflexivity | cbn; lia]).
  unfold bind at 1. rewrite attempt_run.
  destruct (answer_ok (fst (http_get (fileUrl_of (checkTime_of now minutesBack)) e))).
  - exists [fileUrl_of (checkTime_of now minutesBack)].
    split; [reflexivity | cbn; lia].
  - destruct (IH (minutesBack + 2)
                (note_request (fileUrl_of (checkTime_of now minutesBack)) s)
                (snd (http_get (fileUrl_of (checkTime_of now minutesBack)) e)))
      as (new & Hnew & Hlen).
    exists (new ++ [fileUrl_of (checkTime_of now minutesBack)])%list.
    split; [| rewrite length_app; cbn; lia].
    rewrite Hnew. cbn [note_request requested]. now rewrite <- app_assoc.
Qed.

(** X8. One resolution sends at least one and at most 33 requests (the
    listing, one file of the listing, 31 candidates), the first of them
    always the listing; it leaves the cache and the guard flag as they
    were. *)
Theorem resolution_sends_at_most_33 (s : Store) (e : Env) :
  let s' := snd (fst (getLatestMRMSData s e)) in
  (exists new,
      requested s' = (new ++ requested s)%list /\
      (1 <= List.length new <= 33)%nat /\ last new EmptyString = baseUrl) /\
  cachedData s' = cachedData s /\ isFetching s' = isFetching s.
Proof.
  cbv zeta. split.
  - unfold getLatestMRMSData. rewrite rethrow. unfold bind at 1.
    destruct (directory_listing_sends s e) as (new1 & Hsend1 & Hshape).
    unfold sends in Hsend1.
    destruct (directory_listing s e) as [[[[d|]|msg] s1] e1]; cbn [fst snd] in *.
    + exists new1. split; [exact Hsend1 |].
      destruct Hshape as [-> | [u ->]]; cbn; split; (lia || reflexivity).
    + unfold fallback, bind, now_ms.
      destruct (fallback_loop_sends (Date_now e1) 31 0 s1 e1) as (new2 & Hsend2 & Hlen).
      unfold sends in Hsend2.
      exists (new2 ++ new1)%list. rewrite Hsend2, Hsend1, app_assoc.
      split; [reflexivity |]. rewrite length_app.
      destruct Hshape as [-> | [u ->]]; cbn [List.length]; (split; [lia |]);
        rewrite last_last || (change [u; baseUrl] with ([u] ++ [baseUrl])%list;
                              rewrite app_assoc, last_last); reflexivity.
    + exists new1. split; [exact Hsend1 |].
      destruct Hshape as [-> | [u ->]]; cbn; split; (lia || reflexivity).
  - destruct (getLatestMRMSData s e) as [[r s'] e'] eqn:Hget.
    apply getLatestMRMSData_frame in Hget. destruct Hget as (Hc & Hf & _).
    cbn [fst snd] in *. auto.
Qed.

(** X9. The instants the fallback tries are exactly two minutes apart;
    the first is at most two minutes before now; and an instant that is
    already rounded is its own rounding. *)
Theorem candidates_are_two_minutes_apart (now minutesBack : Z) :
  checkTime_of now (minutesBack + 2) = checkTime_of now minutesBack - 120000 /\
  now - 120000 < checkTime_of now 0 <= now /\
  checkTime_of (checkTime_of now minutesBack) 0 = checkTime_of now minutesBack.
Proof.
  rewrite !checkTime_of_rounds. unfold floor_even_minute.
  repeat split; div_lia.
Qed.

(** X10. A refresh leaves the guard flag as it found it: one that
    starts (flag clear) clears it again when it ends, whether the resolver
    returned or threw; one that finds the flag set changes nothing and
    sends nothing. *)
Theorem refresh_keeps_the_guard (s : Store) (e : Env) :
  isFetching (snd (fst (refreshMRMSDataInBackground s e))) = isFetching s /\
  (isFetching s = true -> refreshMRMSDataInBackground s e = (Ok tt, s, e)).
Proof.
  rewrite refresh_run. destruct (isFetching s) eqn:Hf.
  - split; [exact Hf | reflexivity].
  - split; [| discriminate].
    destruct (getLatestMRMSData (set_isFetching true s) e) as [[[d|msg] s1] e1];
      reflexivity.
Qed.

(** X11. What [getCachedOrFetchMRMSData] returns is what the cache holds
    when it returns; it throws only when the cache is empty then, and was
    empty before, under the message of its own [throw]. *)
Theorem resolve_returns_what_is_cached (s : Store) (e : Env) :
  match getCachedOrFetchMRMSData s e with
  | (Ok c, s', _) => cachedData s' = Some c
  | (Throw msg, s', _) =>
      msg = "Failed to fetch MRMS data" /\
      cachedData s' = None /\ cachedData s = None
  end.
Proof.
  destruct (cache_hit (Date_now e) s) eqn:Hhit.
  - unfold cache_hit in Hhit. destruct (cachedData s) as [c|] eqn:Hc; [| discriminate].
    now rewrite (resolve_hit s e c Hc Hhit).
  - rewrite (resolve_miss s e Hhit), refresh_run.
    destruct (isFetching s).
    + destruct (cachedData s) eqn:Hc; repeat split; assumption.
    + destruct (getLatestMRMSData (set_isFetching true s) e)
        as [[[d|msg] s1] e1] eqn:Hget; cbn; [reflexivity |].
      apply getLatestMRMSData_frame in Hget. destruct Hget as (Hc & _).
      cbn [fst snd set_isFetching cachedData] in Hc.
      destruct (cachedData s1) eqn:H1; [exact H1 |].
      repeat split; [exact H1 | now symmetry].
Qed.

(** X12. With a fresh entry in the cache, [GET] answers from it: status
    200, the entry's timestamp under the primary label, and neither the
    module variables nor the outside change, so no request is sent. *)
Theorem GET_answers_from_a_fresh_cache (s : Store) (e : Env) (c : Cached) :
  cachedData s = Some c ->
  Date_now e - lastFetched c < CACHE_DURATION ->
  GET s e =
    ({| http_status := 200;
        body := SuccessBody (timestamp (mrmData c)) tileUrl primary_source
                            conus_coverage conus_bounds |}, s, e).
Proof.
  intros Hc Hage. rewrite GET_run, (resolve_hit s e c Hc); [reflexivity |].
  unfold fresh. now apply Z.ltb_lt.
Qed.

(** X13. When a request finds the cache empty or stale and its refresh
    succeeds, then for as long as the entry that refresh wrote is the one
    in the cache (no later refresh has replaced it), a call of the handler
    that starts within the refresh interval of the first (on a clock that
    does not go back) gets the same response and changes nothing, whatever
    the guard flag and the request list are by then. *)
Theorem second_GET_repeats_the_first (s s2 : Store) (e e' : Env) :
  clock_monotone ->
  isFetching s = false ->
  cache_hit (Date_now e) s = false ->
  strategies_fail (set_isFetching true s) e = false ->
  Date_now e' - Date_now e < CACHE_DURATION ->
  cachedData s2 = cachedData (snd (fst (GET s e))) ->
  GET s2 e' = (fst (fst (GET s e)), s2, e').
Proof.
  intros Hmono Hf Hmiss Hok Hnear.
  rewrite (GET_run s e), (resolve_miss s e Hmiss), refresh_run, Hf.
  unfold strategies_fail in Hok.
  destruct (getLatestMRMSData (set_isFetching true s) e)
    as [[[d|msg] sa] ea] eqn:Hget; [| discriminate].
  apply (getLatestMRMSData_later Hmono) in Hget.
  cbn [fst snd set_isFetching set_cachedData cachedData].
  intros Hsame.
  rewrite GET_run, (resolve_hit s2 e' _ Hsame); [reflexivity |].
  unfold fresh. apply Z.ltb_lt. cbn [lastFetched]. lia.
Qed.

(** *** The resolver does not read the module variables *)

Lemma oblivious_ret {A} (a : A) : oblivious (ret a).
Proof. intros s s' e. split; reflexivity. Qed.

Lemma oblivious_throw {A} (msg : string) : oblivious (@throw A msg).
Proof. intros s s' e. split; reflexivity. Qed.

Lemma oblivious_lift {A} (x : result A) : oblivious (lift x).
Proof. intros s s' e. split; reflexivity. Qed.

Lemma oblivious_now : oblivious now_ms.
Proof. intros s s' e. split; reflexivity. Qed.

Lemma oblivious_axios (v : Z -> bool) (url : string) : oblivious (axios_get v url).
Proof.
  intros s s' e. unfold axios_get.
  destruct (http_get url e) as [[response|] e1];
    [destruct (v (status response)) |]; split; reflexivity.
Qed.

Lemma oblivious_bind {A B} (c : M A) (k : A -> M B) :
  oblivious c -> (forall a, oblivious (k a)) -> oblivious (bind c k).
Proof.
  intros Hc Hk s s' e. unfold bind.
  destruct (Hc s s' e) as [Hr He].
  destruct (c s e) as [[[a|msg] s1] e1], (c s' e) as [[[a'|msg'] s1'] e1'];
    cbn [fst snd] in *; subst; try discriminate.
  - inversion Hr; subst. apply Hk.
  - inversion Hr; subst. split; reflexivity.
Qed.

Lemma oblivious_try_catch {A} (c : M A) (h : string -> M A) :
  oblivious c -> (forall msg, oblivious (h msg)) -> oblivious (try_catch c h).
Proof.
  intros Hc Hh s s' e. unfold try_catch.
  destruct (Hc s s' e) as [Hr He].
  destruct (c s e) as [[[a|msg] s1] e1], (c s' e) as [[[a'|msg'] s1'] e1'];
    cbn [fst snd] in *; subst; try discriminate.
  - inversion Hr; subst. split; reflexivity.
  - inversion Hr; subst. apply Hh.
Qed.

Ltac oblivious_steps :=
  repeat first
    [ apply oblivious_ret | apply oblivious_throw | apply oblivious_lift
    | apply oblivious_now | apply oblivious_axios
    | apply oblivious_bind; [| intros ?]
    | apply oblivious_try_catch; [| intros ?]
    | match goal with
      | |- oblivious (match ?x with _ => _ end) => destruct x
      end ].

Lemma oblivious_fallback_loop (now : Z) (fuel : nat) :
  forall minutesBack, oblivious (fallback_loop fuel now minutesBack).
Proof.
  induction fuel as [|fuel IH]; intros minutesBack; cbn [fallback_loop];
    destruct (minutesBack <=? 60); try apply oblivious_throw.
  apply oblivious_bind; [unfold attempt; cbv zeta; oblivious_steps |].
  intros [d|]; [apply oblivious_ret | apply IH].
Qed.

(** X14. The resolver never reads the cache, the guard flag or the
    request list: from any two stores, in the same outside, it returns the
    same result and leaves the outside in the same state. *)
Theorem resolution_ignores_the_store (s s' : Store) (e : Env) :
  fst (fst (getLatestMRMSData s e)) = fst (fst (getLatestMRMSData s' e)) /\
  snd (getLatestMRMSData s e) = snd (getLatestMRMSData s' e).
Proof.
  revert s s' e. change (oblivious getLatestMRMSData).
  unfold getLatestMRMSData, fallback.
  apply oblivious_try_catch; [| intros; apply oblivious_throw].
  apply oblivious_bind; [unfold directory_listing; cbv zeta; oblivious_steps |].
  intros [d|]; [apply oblivious_ret |].
  apply oblivious_bind; [apply oblivious_now | intros; apply oblivious_fallback_loop].
Qed.

End Resolver.

(** *** The handler in the closed world *)

Local Abbreviation world_listing := (directory_listing World world_get no_gunzip parse_iso).
Local Abbreviation world_latest := (getLatestMRMSData World clock world_get no_gunzip parse_iso).
Local Abbreviation world_resolve :=
  (getCachedOrFetchMRMSData World clock world_get no_gunzip parse_iso).
Local Abbreviation world_GET := (GET World clock world_get no_gunzip parse_iso).

Lemma world_clock_monotone : clock_monotone World clock world_get.
Proof. intros url w. cbn. lia. Qed.

Example candidate_file_name :
  fileUrl_of (checkTime_of noon 4) =
    baseUrl ++ "MRMS_ReflectivityAtLowestAltitude_00.50_20240615-115600.grib2.gz".
Proof. vm_compute. reflexivity. Qed.

Example world_1156_resolves :
  fst (fst (world_latest empty_store world_1156)) =
    Ok {| timestamp := "2024-06-15T11:56:00.000Z";
          fileUrl := baseUrl ++ "MRMS_ReflectivityAtLowestAltitude_00.50_20240615-115600.grib2.gz";
          metadata := conus |} /\
  List.length (requested (snd (fst (world_latest empty_store world_1156)))) = 4%nat.
Proof. vm_compute. split; reflexivity. Qed.

Example listing_world_resolves :
  fst (fst (world_latest empty_store listing_world)) =
    Ok {| timestamp := "2024-01-01T00:10:00.000Z";
          fileUrl := baseUrl ++ "MRMS_ReflectivityAtLowestAltitude_00.50_20240101-001000.grib2.gz";
          metadata := conus |}.
Proof. vm_compute. reflexivity. Qed.

Example silent_world_exhausts :
  fst (fst (world_latest empty_store silent_world)) = Throw unavailable /\
  List.length (requested (snd (fst (world_latest empty_store silent_world)))) = 32%nat.
Proof. vm_compute. split; reflexivity. Qed.

Lemma fallback_walks_the_window_witness :
  world_listing empty_store world_1156
    = (Ok None, snd (fst (world_listing empty_store world_1156)),
       snd (world_listing empty_store world_1156)) /\
  fallback_outcome World world_get no_gunzip
    (clock (snd (world_listing empty_store world_1156)))
    (snd (fst (world_listing empty_store world_1156)))
    (snd (world_listing empty_store world_1156))
    (world_latest empty_store world_1156).
Proof.
  split; [vm_compute; reflexivity |].
  apply (fallback_walks_the_window World clock world_get no_gunzip parse_iso).
  vm_compute. reflexivity.
Defined.

Lemma listing_selects_greatest_timestamp_witness :
  exists latest,
    hd_error (sort by_timestamp_desc (matchAll example_listing)) = Some latest /\
    In latest (matchAll example_listing) /\
    (forall m, In m (matchAll example_listing) ->
               String.leb (m1 m) (m1 latest) = true) /\
    requested (snd (fst (world_listing empty_store listing_world)))
      = (baseUrl ++ m0 latest) :: baseUrl :: requested empty_store.
Proof.
  apply (proj1 (listing_selects_greatest_timestamp World world_get no_gunzip parse_iso)
           empty_store listing_world 200 example_listing
           {| clock := noon + 1000; site := site listing_world |}).
  - vm_compute. reflexivity.
  - reflexivity.
  - vm_compute. discriminate.
Defined.

Lemma fresh_cache_is_served_without_requests_witness :
  world_resolve fresh_store silent_world
    = (Ok (entry_0800 (noon - 60000)), fresh_store, silent_world).
Proof.
  apply (fresh_cache_is_served_without_requests World clock world_get no_gunzip parse_iso).
  - reflexivity.
  - vm_compute. reflexivity.
Defined.

(** C5 as stated fails: with an old entry in the cache and nothing
    answering, both strategies fail and the response carries the old
    entry under the primary label. *)
Lemma stale_entry_is_served_counterexample :
  ~ degrades_whenever_strategies_fail World clock world_get no_gunzip parse_iso.
Proof.
  intros H.
  specialize (H stale_store silent_world).
  assert (H1 : isFetching stale_store = false) by reflexivity.
  assert (H2 : cache_hit (clock silent_world) stale_store = false)
    by (vm_compute; reflexivity).
  assert (H3 : strategies_fail World clock world_get no_gunzip parse_iso
                 (set_isFetching true stale_store) silent_world = true)
    by (vm_compute; reflexivity).
  destruct (H H1 H2 H3) as (_ & _ & Hsource & _).
  vm_compute in Hsource. discriminate.
Qed.

Lemma endpoint_degrades_when_nothing_is_cached_witness :
  degraded (clock silent_world) (fst (fst (world_GET empty_store silent_world))).
Proof.
  apply (endpoint_degrades_when_nothing_is_cached World clock world_get no_gunzip
           parse_iso empty_store silent_world).
  - vm_compute. reflexivity.
  - reflexivity.
Defined.

(** C7 as stated fails: with an empty cache and nothing answering, two
    calls one after the other each walk the listing and the 31 candidates. *)
Lemma failed_refresh_repeats_counterexample :
  ~ one_sequence_per_interval World clock world_get no_gunzip parse_iso.
Proof.
  intros H.
  specialize (H world_clock_monotone empty_store silent_world
                (snd (world_resolve empty_store silent_world))).
  assert (Hnear : clock (snd (world_resolve empty_store silent_world))
                  - clock silent_world < CACHE_DURATION)
    by (vm_compute; reflexivity).
  specialize (H Hnear). unfold at_most_one_sequence in H. cbv zeta in H.
  destruct H as [H | H];
    assert (L := f_equal (@List.length string) H);
    vm_compute in L; discriminate L.
Qed.

Lemma one_sequence_when_refresh_succeeds_witness :
  at_most_one_sequence World clock world_get no_gunzip parse_iso
    empty_store world_1156 (snd (world_resolve empty_store world_1156)).
Proof.
  apply one_sequence_when_refresh_succeeds.
  - intros url w. cbn. lia.
  - vm_compute. reflexivity.
  - intros _ _. vm_compute. reflexivity.
Defined.

(** *** The other properties in the closed world *)

Lemma matches_are_file_names_witness :
  let m := {| m0 := "MRMS_ReflectivityAtLowestAltitude_00.50_20240101-001000.grib2.gz";
              m1 := "20240101-001000" |} in
  (exists pre post, example_listing = pre ++ m0 m ++ post) /\
  m0 m = file_prefix ++ m1 m ++ file_suffix /\
  timestamp_shaped (m1 m) /\
  String.length (m0 m) = 64%nat /\ String.length (m1 m) = 15%nat.
Proof.
  cbv zeta. apply (matches_are_file_names example_listing).
  vm_compute. right. left. reflexivity.
Defined.

Lemma file_name_is_recognised_witness :
  match_here ((file_prefix ++ ("20240615" ++ "-" ++ "120000") ++ file_suffix) ++ "'>")
    = Some {| m0 := file_prefix ++ ("20240615" ++ "-" ++ "120000") ++ file_suffix;
              m1 := "20240615" ++ "-" ++ "120000" |} /\
  hd_error (matchAll ((file_prefix ++ ("20240615" ++ "-" ++ "120000") ++ file_suffix)
                      ++ "'>"))
    = Some {| m0 := file_prefix ++ ("20240615" ++ "-" ++ "120000") ++ file_suffix;
              m1 := "20240615" ++ "-" ++ "120000" |}.
Proof.
  exact (file_name_is_recognised "20240615" "120000" "'>"
           eq_refl eq_refl eq_refl eq_refl).
Defined.

Lemma matches_do_not_overlap_witness : matchAll "MRMS_Reflectivity" = [].
Proof.
  apply (proj2 (matches_do_not_overlap "MRMS_Reflectivity")). cbn. lia.
Defined.

Lemma parseGRIB2Data_outcomes_witness :
  conus = conus /\
  exists buffer,
    (if gzip_magic "GRIB....7777" then no_gunzip "GRIB....7777"
     else Some "GRIB....7777") = Some buffer /\
    toString_ascii 4 buffer = "GRIB" /\ (4 <= String.length buffer)%nat.
Proof.
  apply (proj1 (parseGRIB2Data_outcomes no_gunzip "GRIB....7777") conus).
  reflexivity.
Defined.

Lemma unusable_listing_costs_one_request_witness :
  world_listing empty_store silent_world
    = (Ok None, note_request baseUrl empty_store,
       snd (world_get baseUrl silent_world)).
Proof.
  apply (unusable_listing_costs_one_request World world_get no_gunzip parse_iso).
  reflexivity.
Defined.

Lemma listing_strategy_resolves_witness :
  world_latest empty_store listing_world
    = (Ok {| timestamp := JS.toISOString 1704067800000;
             fileUrl := baseUrl ++ "MRMS_ReflectivityAtLowestAltitude_00.50_20240101-001000.grib2.gz";
             metadata := conus |},
       note_request
         (baseUrl ++ "MRMS_ReflectivityAtLowestAltitude_00.50_20240101-001000.grib2.gz")
         (note_request baseUrl empty_store),
       {| clock := noon + 2000; site := site listing_world |}).
Proof.
  apply (listing_strategy_resolves World clock world_get no_gunzip parse_iso
           empty_store listing_world
           {| clock := noon + 1000; site := site listing_world |}
           {| clock := noon + 2000; site := site listing_world |}
           200 example_listing "GRIB....7777"
           {| m0 := "MRMS_ReflectivityAtLowestAltitude_00.50_20240101-001000.grib2.gz";
              m1 := "20240101-001000" |}
           (List.tl (sort by_timestamp_desc (matchAll example_listing)))
           conus 1704067800000);
    vm_compute; reflexivity.
Defined.

Lemma refresh_keeps_the_guard_witness :
  refreshMRMSDataInBackground World clock world_get no_gunzip parse_iso
    busy_store silent_world
  = (Ok tt, busy_store, silent_world).
Proof.
  apply (proj2 (refresh_keeps_the_guard World clock world_get no_gunzip parse_iso
                  busy_store silent_world)).
  reflexivity.
Defined.

Lemma GET_answers_from_a_fresh_cache_witness :
  world_GET fresh_store silent_world
  = ({| http_status := 200;
        body := SuccessBody "2024-06-15T08:00:00.000Z" tileUrl primary_source
                            conus_coverage conus_bounds |},
     fresh_store, silent_world).
Proof.
  apply (GET_answers_from_a_fresh_cache World clock world_get no_gunzip parse_iso
           fresh_store silent_world (entry_0800 (noon - 60000))).
  - reflexivity.
  - vm_compute. reflexivity.
Defined.

Lemma second_GET_repeats_the_first_witness :
  world_GET (snd (fst (world_GET empty_store world_1156)))
            (snd (world_GET empty_store world_1156))
  = (fst (fst (world_GET empty_store world_1156)),
     snd (fst (world_GET empty_store world_1156)),
     snd (world_GET empty_store world_1156)).
Proof.
  apply (second_GET_repeats_the_first World clock world_get no_gunzip parse_iso
           empty_store (snd (fst (world_GET empty_store world_1156)))
           world_1156 (snd (world_GET empty_store world_1156))).
  - intros url w. cbn. lia.
  - reflexivity.
  - reflexivity.
  - vm_compute. reflexivity.
  - vm_compute. reflexivity.
  - reflexivity.
Defined.

End Route.

(** ** The display controller, [src/components/radar-display.tsx] *)

Module Display.

(** A Leaflet layer: the id Leaflet stamps it with, its tile template, and
    whether [fetchRadar] created it (the radar overlay) or [initMap] did
    (the base map). *)
Record Layer := { layer_id : nat; layer_url : string; overlay : bool }.

Record LeafletMap := { layers : list Layer }.

Definition overlays (m : LeafletMap) : list Layer := filter overlay (layers m).

(** [layer.addTo(map)] for a layer just created, and [map.removeLayer(layer)]. *)
Definition addTo (l : Layer) (m : LeafletMap) : LeafletMap :=
  {| layers := layers m ++ [l] |}.
Definition removeLayer (l : Layer) (m : LeafletMap) : LeafletMap :=
  {| layers := filter (fun x => negb (Nat.eqb (layer_id x) (layer_id l))) (layers m) |}.

(** Where the asynchronous [initMap] stands. *)
Inductive InitPhase := NotStarted | AwaitImport | AwaitFirstFetch | InitDone.

Record State := {
  mapContainer_current : bool;           (* the ref holds the div *)
  map_current : option LeafletMap;       (* [map.current] *)
  radarLayer_current : option Layer;     (* [radarLayer.current] *)
  isLoading : bool;
  error : option string;
  isMounted : bool;
  intervals : list Z;                    (* delays of the live [setInterval] timers *)
  listeners : list string;               (* event names [handleRefresh] listens to *)
  lastUpdate : option string;            (* last argument of [onLastUpdateChange] *)
  stamp : nat;                           (* Leaflet's id counter *)
  init : InitPhase;
  in_flight : nat                        (* calls of [fetchRadar] suspended at an [await] *)
}.

(** The JSON of the endpoint as the client reads it. *)
Record Payload := {
  p_error : option string;
  p_tile_url : option string;
  p_timestamp : option string
}.

(** How the awaits of one [fetchRadar] end: [fetch] or [response.json()]
    rejects (with the message of the error, if it is one), or a response
    arrives with [response.ok] and its JSON. *)
Inductive FetchOutcome :=
| Rejected (message : option string)
| Responded (ok : bool) (data : Payload).

Definition initial : State :=
  {| mapContainer_current := true; map_current := None; radarLayer_current := None;
     isLoading := true; error := None; isMounted := false;
     intervals := []; listeners := []; lastUpdate := None; stamp := 0;
     init := NotStarted; in_flight := 0 |}.

Definition set_map (m : option LeafletMap) (st : State) : State :=
  {| mapContainer_current := mapContainer_current st; map_current := m;
     radarLayer_current := radarLayer_current st; isLoading := isLoading st;
     error := error st; isMounted := isMounted st; intervals := intervals st;
     listeners := listeners st; lastUpdate := lastUpdate st; stamp := stamp st;
     init := init st; in_flight := in_flight st |}.
Definition set_radarLayer (l : option Layer) (st : State) : State :=
  {| mapContainer_current := mapContainer_current st; map_current := map_current st;
     radarLayer_current := l; isLoading := isLoading st;
     error := error st; isMounted := isMounted st; intervals := intervals st;
     listeners := listeners st; lastUpdate := lastUpdate st; stamp := stamp st;
     init := init st; in_flight := in_flight st |}.
Definition setIsLoading (b : bool) (st : State) : State :=
  {| mapContainer_current := mapContainer_current st; map_current := map_current st;
     radarLayer_current := radarLayer_current st; isLoading := b;
     error := error st; isMounted := isMounted st; intervals := intervals st;
     listeners := listeners st; lastUpdate := lastUpdate st; stamp := stamp st;
     init := init st; in_flight := in_flight st |}.
Definition setError (e : option string) (st : State) : State :=
  {| mapContainer_current := mapContainer_current st; map_current := map_current st;
     radarLayer_current := radarLayer_current st; isLoading := isLoading st;
     error := e; isMounted := isMounted st; intervals := intervals st;
     listeners := listeners st; lastUpdate := lastUpdate st; stamp := stamp st;
     init := init st; in_flight := in_flight st |}.
Definition set_isMounted (b : bool) (st : State) : State :=
  {| mapContainer_current := mapContainer_current st; map_current := map_current st;
     radarLayer_current := radarLayer_current st; isLoading := isLoading st;
     error := error st; isMounted := b; intervals := intervals st;
     listeners := listeners st; lastUpdate := lastUpdate st; stamp := stamp st;
     init := init st; in_flight := in_flight st |}.
Definition set_intervals (ts : list Z) (st : State) : State :=
  {| mapContainer_current := mapContainer_current st; map_current := map_current st;
     radarLayer_current := radarLayer_current st; isLoading := isLoading st;
     error := error st; isMounted := isMounted st; intervals := ts;
     listeners := listeners st; lastUpdate := lastUpdate st; stamp := stamp st;
     init := init st; in_flight := in_flight st |}.
Definition set_listeners (ls : list string) (st : State) : State :=
  {| mapContainer_current := mapContainer_current st; map_current := map_current st;
     radarLayer_current := radarLayer_current st; isLoading := isLoading st;
     error := error st; isMounted := isMounted st; intervals := intervals st;
     listeners := ls; lastUpdate := lastUpdate st; stamp := stamp st;
     init := init st; in_flight := in_flight st |}.
Definition onLastUpdateChange (t : option string) (st : State) : State :=
  {| mapContainer_current := mapContainer_current st; map_current := map_current st;
     radarLayer_current := radarLayer_current st; isLoading := isLoading st;
     error := error st; isMounted := isMounted st; intervals := intervals st;
     listeners := listeners st; lastUpdate := t; stamp := stamp st;
     init := init st; in_flight := in_flight st |}.
Definition set_stamp (n : nat) (st : State) : State :=
  {| mapContainer_current := mapContainer_current st; map_current := map_current st;
     radarLayer_current := radarLayer_current st; isLoading := isLoading st;
     error := error st; isMounted := isMounted st; intervals := intervals st;
     listeners := listeners st; lastUpdate := lastUpdate st; stamp := n;
     init := init st; in_flight := in_flight st |}.
Definition set_init (p : InitPhase) (st : State) : State :=
  {| mapContainer_current := mapContainer_current st; map_current := map_current st;
     radarLayer_current := radarLayer_current st; isLoading := isLoading st;
     error := error st; isMounted := isMounted st; intervals := intervals st;
     listeners := listeners st; lastUpdate := lastUpdate st; stamp := stamp st;
     init := p; in_flight := in_flight st |}.
Definition set_in_flight (n : nat) (st : State) : State :=
  {| mapContainer_current := mapContainer_current st; map_current := map_current st;
     radarLayer_current := radarLayer_current st; isLoading := isLoading st;
     error := error st; isMounted := isMounted st; intervals := intervals st;
     listeners := listeners st; lastUpdate := lastUpdate st; stamp := stamp st;
     init := init st; in_flight := n |}.

(** [Leaflet.tileLayer(url, options)]: a new layer with the next id. *)
Definition tileLayer (url : string) (is_overlay : bool) (st : State) : Layer * State :=
  ({| layer_id := stamp st; layer_url := url; overlay := is_overlay |},
   set_stamp (S (stamp st)) st).

Definition basemap_url : string :=
  "https://{s}.basemaps.cartocdn.com/dark_all/{z}/{x}/{y}{r}.png".

(** [fetchRadar] up to its first [await]. *)
Definition fetchRadar_begin (st : State) : State :=
  set_in_flight (S (in_flight st)) (setError None (setIsLoading true st)).

(** The [catch] of [fetchRadar]. *)
Definition fetchRadar_catch (message : option string) (st : State) : State :=
  let shown := match message with Some m => m | None => "Unknown error" end in
  setIsLoading false (setError (Some shown) st).

(** [fetchRadar] after its awaits, when the response is usable. *)
Definition install_overlay (data : Payload) (st : State) : State :=
  let st1 :=
    match radarLayer_current st, map_current st with
    | Some old, Some m => set_map (Some (removeLayer old m)) st
    | _, _ => st
    end in
  let st2 :=
    match map_current st1, JS.if_truthy (p_tile_url data) with
    | Some m, Some url =>
        let (l, st') := tileLayer url true st1 in
        onLastUpdateChange (p_timestamp data)
          (set_radarLayer (Some l) (set_map (Some (addTo l m)) st'))
    | _, _ => st1
    end in
  setIsLoading false st2.

(** [fetchRadar] from its first [await] to its end. *)
Definition fetchRadar_settle (o : FetchOutcome) (st : State) : State :=
  match o with
  | Rejected message => fetchRadar_catch message st
  | Responded ok data =>
      if negb ok then fetchRadar_catch (Some "Failed to fetch radar data") st
      else if JS.truthy (p_error data) then fetchRadar_catch (p_error data) st
      else install_overlay data st
  end.

(** The function [initMap] resolves to. *)
Definition initMap_cleanup (st : State) : State :=
  set_listeners (List.remove string_dec "refresh-radar" (listeners st))
    (set_intervals (List.remove Z.eq_dec 120000 (intervals st)) st).

(** [initMap] up to its first [await]. *)
Definition initMap_begin (st : State) : State :=
  if negb (mapContainer_current st) then set_init InitDone st
  else set_init AwaitImport st.

(** [initMap] from the imports to [await fetchRadar()]; [ok] tells whether
    the imports and the creation of the map went through. *)
Definition initMap_after_import (ok : bool) (st : State) : State :=
  if negb ok then set_init InitDone (setError (Some "Failed to load map library") st)
  else if negb (isMounted st) then set_init InitDone st
  else
    let st1 := set_map (Some {| layers := [] |}) st in
    let (base, st2) := tileLayer basemap_url false st1 in
    let st3 := set_map (Some (addTo base {| layers := [] |})) st2 in
    fetchRadar_begin (set_init AwaitFirstFetch st3).

(** [initMap] after [await fetchRadar()]: the timer, the listener, and the
    function it returns. *)
Definition initMap_after_first_fetch (st : State) : State * option (State -> State) :=
  let st1 := set_intervals (120000 :: intervals st) st in
  let st2 := set_listeners ("refresh-radar" :: listeners st1) st1 in
  (set_init InitDone st2, Some initMap_cleanup).

(** The function the effect returns. *)
Definition effect_cleanup (st : State) : State :=
  let st1 := set_isMounted false st in
  match map_current st1 with
  | Some _ => set_map None st1
  | None => st1
  end.

(** The effect: [initMap()] is called and the promise it returns is not
    kept; the effect returns its own cleanup, which React runs on unmount. *)
Definition useEffect (st : State) : State * (State -> State) :=
  let st1 := set_isMounted true st in
  let st2 := initMap_begin st1 in
  (st2, effect_cleanup).

Inductive Event :=
| Mount
| ImportSettled (ok : bool)
| FetchSettled (o : FetchOutcome)
| IntervalTick
| RefreshRadar
| Unmount.

Definition step (ev : Event) (st : State) : State :=
  match ev with
  | Mount =>
      match init st with
      | NotStarted => fst (useEffect st)
      | _ => st
      end
  | ImportSettled ok =>
      match init st with
      | AwaitImport => initMap_after_import ok st
      | _ => st
      end
  | FetchSettled o =>
      match in_flight st with
      | O => st
      | S n =>
          let st1 := fetchRadar_settle o (set_in_flight n st) in
          match init st1 with
          | AwaitFirstFetch => fst (initMap_after_first_fetch st1)
          | _ => st1
          end
      end
  | IntervalTick =>
      match intervals st, map_current st with
      | _ :: _, Some _ => fetchRadar_begin st
      | _, _ => st
      end
  | RefreshRadar =>
      match listeners st with
      | _ :: _ => fetchRadar_begin st
      | [] => st
      end
  | Unmount => snd (useEffect st) st
  end.

Definition run (evs : list Event) (st : State) : State :=
  fold_left (fun s ev => step ev s) evs st.

(** A response that is usable: [response.ok] and no [error] in the JSON. *)
Definition usable (o : FetchOutcome) : bool :=
  match o with
  | Responded true data => negb (JS.truthy (p_error data))
  | _ => false
  end.

(** What the overlay on the map and the ref agree on at all times. *)
Definition overlay_tracked (st : State) : Prop :=
  forall m, map_current st = Some m ->
    overlays m = [] \/
    exists l, overlays m = [l] /\ radarLayer_current st = Some l.

(** A successful overlay fetch: the response is ok and its JSON is a success
    body of the endpoint, with no [error] and with a [tile_url]. *)
Definition successful (o : FetchOutcome) : bool :=
  match o with
  | Responded true data =>
      negb (JS.truthy (p_error data)) && JS.truthy (p_tile_url data)
  | _ => false
  end.

(** What [fetch("/api/radar-data")] and [response.json()] give the client
    for a response of the route handler: [response.ok] is a status from
    200 to 299, and the fields are those of the body. *)
Definition client_view (r : Route.HttpResponse) : FetchOutcome :=
  Responded
    ((200 <=? Route.http_status r) && (Route.http_status r <? 300))
    match Route.body r with
    | Route.SuccessBody timestamp tile_url _ _ _ =>
        {| p_error := None; p_tile_url := Some tile_url;
           p_timestamp := Some timestamp |}
    | Route.ErrorBody error _ =>
        {| p_error := Some error; p_tile_url := None; p_timestamp := None |}
    end.

Definition good_payload : Payload :=
  {| p_error := None;
     p_tile_url := Some "https://mesonet.agron.iastate.edu/cache/tile.py/1.0.0/nexrad-n0q-900913/{z}/{x}/{y}.png";
     p_timestamp := Some "2024-06-15T12:00:00.000Z" |}.
(** The layer [initMap] puts on a new map: the first layer Leaflet stamps. *)
Definition base_layer : Layer :=
  {| layer_id := 0; layer_url := basemap_url; overlay := false |}.

(** Nothing is set up and nothing is pending: no map, no timer, no
    listener, no fetch in flight, and [initMap] has ended. *)
Definition inert (st : State) : Prop :=
  init st = InitDone /\ map_current st = None /\
  intervals st = [] /\ listeners st = [] /\ in_flight st = 0%nat.

(** The component was mounted and its effect has been cleaned up. *)
Definition gone (st : State) : Prop :=
  map_current st = None /\ isMounted st = false /\ init st <> NotStarted.

(** What is drawn, and what the parent was told. *)
Definition drawn (st : State) : option LeafletMap * option Layer * option string * nat :=
  (map_current st, radarLayer_current st, lastUpdate st, stamp st).

(** How the layers of the map, the ref and Leaflet's counter fit together. *)
Definition well_layered (st : State) : Prop :=
  (init st = NotStarted \/ init st = AwaitImport ->
   map_current st = None /\ radarLayer_current st = None /\ stamp st = 0%nat) /\
  (forall l, radarLayer_current st = Some l ->
             overlay l = true /\ (1 <= layer_id l < stamp st)%nat) /\
  (forall m, map_current st = Some m ->
             (1 <= stamp st)%nat /\
             (layers m = [base_layer] \/
              exists l, layers m = [base_layer; l] /\ radarLayer_current st = Some l)).

(** *** What the steps keep *)

Lemma overlays_removeLayer (old : Layer) (m : LeafletMap) :
  overlays (removeLayer old m)
  = filter (fun x => negb (Nat.eqb (layer_id x) (layer_id old))) (overlays m).
Proof.
  unfold overlays, removeLayer. cbn [layers].
  induction (layers m) as [|x l IH]; [reflexivity |].
  cbn [filter].
  destruct (negb (layer_id x =? layer_id old)%nat) eqn:Hid, (overlay x) eqn:Hov;
    cbn [filter]; rewrite ?Hid, ?Hov, IH; reflexivity.
Qed.

Lemma overlays_addTo (l : Layer) (m : LeafletMap) :
  overlay l = true -> overlays (addTo l m) = (overlays m ++ [l])%list.
Proof.
  intros Hl. unfold overlays, addTo. cbn [layers].
  rewrite filter_app. cbn [filter]. now rewrite Hl.
Qed.

(** After the removal in [fetchRadar] no overlay is left on the map. *)
Lemma removal_clears_overlays (st : State) (m : LeafletMap) :
  overlay_tracked st ->
  map_current st = Some m ->
  overlays (match radarLayer_current st with
            | Some old => removeLayer old m
            | None => m
            end) = [].
Proof.
  intros Hinv Hm. destruct (Hinv m Hm) as [Hnone | (l & Hone & Hl)].
  - destruct (radarLayer_current st) as [old|]; [| assumption].
    rewrite overlays_removeLayer, Hnone. reflexivity.
  - rewrite Hl, overlays_removeLayer, Hone. cbn [filter].
    now rewrite Nat.eqb_refl.
Qed.

Lemma install_overlay_map (data : Payload) (st : State) (m : LeafletMap) :
  overlay_tracked st ->
  map_current st = Some m ->
  match JS.if_truthy (p_tile_url data) with
  | Some url =>
      exists m' l,
        map_current (install_overlay data st) = Some m' /\
        overlays m' = [l] /\ layer_url l = url /\
        radarLayer_current (install_overlay data st) = Some l
  | None =>
      exists m',
        map_current (install_overlay data st) = Some m' /\ overlays m' = [] /\
        radarLayer_current (install_overlay data st) = radarLayer_current st
  end.
Proof.
  intros Hinv Hm. pose proof (removal_clears_overlays st m Hinv Hm) as Hclear.
  unfold install_overlay. cbv zeta. rewrite Hm.
  destruct (radarLayer_current st) as [old|] eqn:Hold;
    cbn [set_map map_current radarLayer_current];
    destruct (JS.if_truthy (p_tile_url data)) as [url|];
    cbn [tileLayer set_map set_radarLayer onLastUpdateChange setIsLoading set_stamp
         map_current radarLayer_current]; rewrite ?Hm;
    cbn [tileLayer set_map set_radarLayer onLastUpdateChange setIsLoading set_stamp
         map_current radarLayer_current].
  - eexists _, _. split; [reflexivity |].
    rewrite overlays_addTo, Hclear by reflexivity. repeat split.
  - eexists. repeat split; assumption.
  - eexists _, _. split; [reflexivity |].
    rewrite overlays_addTo, Hclear by reflexivity. repeat split.
  - eexists. repeat split; assumption.
Qed.

Lemma install_overlay_tracked (data : Payload) (st : State) :
  overlay_tracked st -> overlay_tracked (install_overlay data st).
Proof.
  intros Hinv m' Hm'.
  destruct (map_current st) as [m|] eqn:Hm.
  - pose proof (install_overlay_map data st m Hinv Hm) as H.
    destruct (JS.if_truthy (p_tile_url data)).
    + destruct H as (m1 & l & H1 & H2 & _ & H4).
      rewrite H1 in Hm'. inversion Hm'; subst. right. now exists l.
    + destruct H as (m1 & H1 & H2 & _).
      rewrite H1 in Hm'. inversion Hm'; subst. now left.
  - exfalso. revert Hm'. unfold install_overlay. cbv zeta. rewrite Hm.
    destruct (radarLayer_current st); rewrite Hm; cbn; rewrite Hm; discriminate.
Qed.

(** A step that leaves the map and the ref alone keeps the agreement. *)
Lemma tracked_same (st st' : State) :
  map_current st' = map_current st ->
  radarLayer_current st' = radarLayer_current st ->
  overlay_tracked st -> overlay_tracked st'.
Proof.
  intros Hm Hr Hinv m Hm'. rewrite Hm in Hm'. rewrite Hr. now apply Hinv.
Qed.

Lemma fetchRadar_catch_same (message : option string) (st : State) :
  map_current (fetchRadar_catch message st) = map_current st /\
  radarLayer_current (fetchRadar_catch message st) = radarLayer_current st /\
  error (fetchRadar_catch message st) <> None /\
  isLoading (fetchRadar_catch message st) = false.
Proof. unfold fetchRadar_catch. cbn. repeat split. discriminate. Qed.

Lemma fetchRadar_settle_unusable (o : FetchOutcome) (st : State) :
  usable o = false ->
  fetchRadar_settle o st
  = fetchRadar_catch
      (match o with
       | Rejected message => message
       | Responded ok data =>
           if negb ok then Some "Failed to fetch radar data" else p_error data
       end) st.
Proof.
  destruct o as [message | [|] data]; cbn; try reflexivity.
  destruct (JS.truthy (p_error data)); [reflexivity | discriminate].
Qed.

Lemma fetchRadar_settle_tracked (o : FetchOutcome) (st : State) :
  overlay_tracked st -> overlay_tracked (fetchRadar_settle o st).
Proof.
  intros Hinv. destruct (usable o) eqn:Hu.
  - destruct o as [message | [|] data]; try discriminate.
    cbn in Hu |- *. destruct (JS.truthy (p_error data)); [discriminate |].
    now apply install_overlay_tracked.
  - rewrite fetchRadar_settle_unusable by assumption.
    eapply tracked_same; [| | eassumption]; apply fetchRadar_catch_same.
Qed.

Lemma step_tracked (ev : Event) (st : State) :
  overlay_tracked st -> overlay_tracked (step ev st).
Proof.
  intros Hinv. destruct ev as [| ok | o | | |]; cbn [step].
  - destruct (init st); try assumption.
    cbn. unfold initMap_begin.
    destruct (negb (mapContainer_current (set_isMounted true st)));
      (eapply tracked_same; [| | eassumption]; reflexivity).
  - destruct (init st); try assumption.
    unfold initMap_after_import.
    destruct (negb ok); [eapply tracked_same; [| | eassumption]; reflexivity |].
    destruct (negb (isMounted st)); [eapply tracked_same; [| | eassumption]; reflexivity |].
    intros m Hm. cbn in Hm. inversion Hm; subst. left. reflexivity.
  - destruct (in_flight st) as [|n]; [assumption |].
    cbv zeta.
    assert (Hs : overlay_tracked (fetchRadar_settle o (set_in_flight n st))).
    { apply fetchRadar_settle_tracked.
      eapply tracked_same; [| | eassumption]; reflexivity. }
    destruct (init (fetchRadar_settle o (set_in_flight n st)));
      (eapply tracked_same; [| | exact Hs]; reflexivity).
  - destruct (intervals st); [assumption |].
    destruct (map_current st) eqn:Hm; [| assumption].
    eapply tracked_same; [| | eassumption]; reflexivity.
  - destruct (listeners st); [assumption |].
    eapply tracked_same; [| | eassumption]; reflexivity.
  - cbn. unfold effect_cleanup. cbv zeta. cbn [map_current set_isMounted].
    destruct (map_current st) eqn:Hm.
    + intros m Hm'. cbn in Hm'. discriminate.
    + eapply tracked_same; [| | eassumption]; [cbn; now rewrite Hm | reflexivity].
Qed.

Lemma run_tracked (evs : list Event) :
  forall st, overlay_tracked st -> overlay_tracked (run evs st).
Proof.
  induction evs as [|ev evs IH]; intros st Hinv; [assumption |].
  cbn [run fold_left]. apply IH, step_tracked, Hinv.
Qed.

Lemma initial_tracked : overlay_tracked initial.
Proof. intros m Hm. discriminate. Qed.

(** C8. In every state the component reaches with a map, after a
    successful overlay fetch exactly one overlay is on the map: the new
    one, with the tile template of the response, which the ref now holds
    (the one before it was removed first). After a fetch that failed
    (rejected, not ok, or with an error in its JSON) the map and the ref
    are what they were and the error is shown. Every response the route
    handler builds reads, on the client, as a successful overlay fetch. *)
Theorem exactly_one_overlay_after_success
  (evs : list Event) (data : Payload) (o : FetchOutcome) :
  let st := run evs initial in
  (successful (Responded true data) = true ->
   forall m, map_current st = Some m ->
     exists m' l,
       map_current (fetchRadar_settle (Responded true data) st) = Some m' /\
       overlays m' = [l] /\
       p_tile_url data = Some (layer_url l) /\
       radarLayer_current (fetchRadar_settle (Responded true data) st) = Some l) /\
  (usable o = false ->
   map_current (fetchRadar_settle o st) = map_current st /\
   radarLayer_current (fetchRadar_settle o st) = radarLayer_current st /\
   error (fetchRadar_settle o st) <> None) /\
  (forall (Env : Type) (Date_now : Env -> Z)
          (http_get : string -> Env -> option Route.Response * Env)
          (gunzip : string -> option string) (Date_parse : string -> option Z)
          (s : Route.Store) (e : Env),
      successful
        (client_view (fst (fst (Route.GET Env Date_now http_get gunzip Date_parse s e))))
      = true).
Proof.
  cbv zeta. split; [| split].
  - intros Hok m Hm. cbn [successful] in Hok.
    apply andb_prop in Hok as [Herr Hurl].
    apply negb_true_iff in Herr.
    cbn [fetchRadar_settle negb]. rewrite Herr.
    pose proof (install_overlay_map data (run evs initial) m
                  (run_tracked evs initial initial_tracked) Hm) as H.
    unfold JS.if_truthy in H. rewrite Hurl in H.
    destruct (p_tile_url data) as [url|] eqn:Hp; [| discriminate].
    destruct H as (m' & l & H1 & H2 & H3 & H4).
    exists m', l. repeat split; try assumption. now rewrite H3.
  - intros Hu. rewrite fetchRadar_settle_unusable by assumption.
    repeat split; apply fetchRadar_catch_same.
  - intros Env Date_now http_get gunzip Date_parse s e.
    rewrite Route.GET_run.
    destruct (Route.getCachedOrFetchMRMSData Env Date_now http_get gunzip Date_parse s e)
      as [[[c|msg] s'] e']; reflexivity.
Qed.

Lemma exactly_one_overlay_after_success_witness :
  let st := run [Mount; ImportSettled true; FetchSettled (Responded true good_payload)]
                initial in
  (exists m' l,
      map_current (fetchRadar_settle (Responded true good_payload) st) = Some m' /\
      overlays m' = [l] /\
      p_tile_url good_payload = Some (layer_url l) /\
      radarLayer_current (fetchRadar_settle (Responded true good_payload) st) = Some l) /\
  (map_current (fetchRadar_settle (Rejected None) st) = map_current st /\
   radarLayer_current (fetchRadar_settle (Rejected None) st) = radarLayer_current st /\
   error (fetchRadar_settle (Rejected None) st) <> None).
Proof.
  cbv zeta. split.
  - refine (proj1 (exactly_one_overlay_after_success
                     [Mount; ImportSettled true; FetchSettled (Responded true good_payload)]
                     good_payload (Rejected None)) _ _ _);
      vm_compute; reflexivity.
  - refine (proj1 (proj2 (exactly_one_overlay_after_success
                     [Mount; ImportSettled true; FetchSettled (Responded true good_payload)]
                     good_payload (Rejected None))) _).
    reflexivity.
Defined.

(** *** Unmounting *)

Lemma fetchRadar_settle_registrations (o : FetchOutcome) (st : State) :
  intervals (fetchRadar_settle o st) = intervals st /\
  listeners (fetchRadar_settle o st) = listeners st /\
  init (fetchRadar_settle o st) = init st /\
  in_flight (fetchRadar_settle o st) = in_flight st /\
  (map_current st <> None -> map_current (fetchRadar_settle o st) <> None).
Proof.
  destruct o as [message | ok data]; cbn [fetchRadar_settle].
  - cbn. auto.
  - destruct (negb ok); [cbn; auto |].
    destruct (JS.truthy (p_error data)); [cbn; auto |].
    unfold install_overlay. cbv zeta.
    destruct (radarLayer_current st), (map_current st) eqn:Hm; cbn;
      rewrite ?Hm; destruct (JS.if_truthy (p_tile_url data)); cbn;
      repeat split; congruence.
Qed.

(** C9, on the code. Once the map is up and the first fetch has settled, a
    timer and a listener are registered; unmounting releases the map and
    nothing else: the timer is still live, the listener is still
    registered (in every state, the function React runs on unmount leaves
    both lists as they are), and a [refresh-radar] event after the unmount
    still starts a fetch. *)
Theorem unmount_releases_only_the_map (o : FetchOutcome) :
  let mounted := run [Mount; ImportSettled true; FetchSettled o] initial in
  let unmounted := step Unmount mounted in
  (map_current mounted <> None /\
   intervals mounted = [120000] /\ listeners mounted = ["refresh-radar"]) /\
  (map_current unmounted = None /\
   intervals unmounted = [120000] /\ listeners unmounted = ["refresh-radar"] /\
   in_flight (step RefreshRadar unmounted) = 1%nat) /\
  (forall st, intervals (step Unmount st) = intervals st /\
              listeners (step Unmount st) = listeners st).
Proof.
  assert (Hall : forall st, intervals (step Unmount st) = intervals st /\
                            listeners (step Unmount st) = listeners st).
  { intros st. cbn. unfold effect_cleanup. cbv zeta. cbn [map_current set_isMounted].
    destruct (map_current st); cbn; auto. }
  cbv zeta.
  set (st1 := run [Mount; ImportSettled true] initial).
  assert (Hmounted : run [Mount; ImportSettled true; FetchSettled o] initial
                     = fst (initMap_after_first_fetch
                              (fetchRadar_settle o (set_in_flight 0 st1)))).
  { change (run [Mount; ImportSettled true; FetchSettled o] initial)
      with (step (FetchSettled o) st1).
    unfold step. change (in_flight st1) with 1%nat. cbv zeta.
    destruct (fetchRadar_settle_registrations o (set_in_flight 0 st1))
      as (_ & _ & Hinit & _).
    rewrite Hinit. reflexivity. }
  rewrite Hmounted.
  destruct (fetchRadar_settle_registrations o (set_in_flight 0 st1))
    as (Hi & Hl & Hinit & Hfl & Hmap).
  set (st2 := fetchRadar_settle o (set_in_flight 0 st1)) in *.
  assert (Hmap2 : map_current st2 <> None) by (apply Hmap; cbn; discriminate).
  split; [| split; [| exact Hall]].
  - cbn. rewrite Hi, Hl. repeat split. exact Hmap2.
  - destruct (Hall (fst (initMap_after_first_fetch st2))) as [Hi' Hl'].
    rewrite Hi', Hl'. cbn [initMap_after_first_fetch fst]. cbn.
    rewrite Hi, Hl. unfold effect_cleanup. cbv zeta.
    cbn [map_current set_isMounted set_init set_listeners set_intervals].
    destruct (map_current st2) eqn:Hm; [| contradiction].
    cbn. rewrite Hfl. repeat split.
Qed.

(** *** Loading and error of one fetch *)

Lemma install_overlay_flags (data : Payload) (st : State) :
  isLoading (install_overlay data st) = false /\
  error (install_overlay data st) = error st.
Proof.
  unfold install_overlay. cbv zeta.
  destruct (radarLayer_current st), (map_current st) eqn:Hm; cbn;
    rewrite ?Hm; destruct (JS.if_truthy (p_tile_url data)); cbn; auto.
Qed.

(** X15. A fetch that no other fetch interleaves with starts with the
    loading flag set and the error cleared, and ends with the loading
    flag cleared; at its end the error is set when the response was not
    usable and is still clear when it was. *)
Theorem fetch_ends_loading (o : FetchOutcome) (st : State) :
  isLoading (fetchRadar_begin st) = true /\
  error (fetchRadar_begin st) = None /\
  isLoading (fetchRadar_settle o (fetchRadar_begin st)) = false /\
  match error (fetchRadar_settle o (fetchRadar_begin st)) with
  | None => usable o = true
  | Some _ => usable o = false
  end.
Proof.
  split; [reflexivity | split; [reflexivity |]].
  destruct (usable o) eqn:Hu.
  - destruct o as [message | [|] data]; try discriminate.
    cbn in Hu |- *. destruct (JS.truthy (p_error data)); [discriminate |].
    destruct (install_overlay_flags data (fetchRadar_begin st)) as [Hl He].
    rewrite Hl, He. split; reflexivity.
  - rewrite fetchRadar_settle_unusable by assumption.
    destruct (fetchRadar_catch_same
                (match o with
                 | Rejected message => message
                 | Responded ok data =>
                     if negb ok then Some "Failed to fetch radar data" else p_error data
                 end) (fetchRadar_begin st)) as (_ & _ & He & Hl).
    split; [exact Hl |].
    destruct (error (fetchRadar_catch _ (fetchRadar_begin st)));
      [reflexivity | contradiction].
Qed.

(** *** Initialisation that does not go through *)

Lemma drawn_eq (st st' : State) :
  drawn st' = drawn st ->
  map_current st' = map_current st /\
  radarLayer_current st' = radarLayer_current st /\
  lastUpdate st' = lastUpdate st /\ stamp st' = stamp st.
Proof. unfold drawn. intros H. injection H. auto. Qed.

Lemma step_inert (ev : Event) (st : State) :
  inert st ->
  inert (step ev st) /\ drawn (step ev st) = drawn st /\
  error (step ev st) = error st /\ isLoading (step ev st) = isLoading st.
Proof.
  intros (Hinit & Hmap & Hint & Hlis & Hfl).
  destruct ev as [| ok | o | | |]; cbn [step]; rewrite ?Hinit, ?Hfl, ?Hint, ?Hlis;
    try (repeat split; assumption).
  cbn. unfold effect_cleanup. cbv zeta. cbn [map_current set_isMounted].
  rewrite Hmap. unfold inert, drawn. cbn. repeat split; assumption.
Qed.

Lemma run_inert (evs : list Event) :
  forall st,
    inert st ->
    inert (run evs st) /\ drawn (run evs st) = drawn st /\
    error (run evs st) = error st /\ isLoading (run evs st) = isLoading st.
Proof.
  induction evs as [|ev evs IH]; intros st H; [repeat split; apply H |].
  change (run (ev :: evs) st) with (run evs (step ev st)).
  destruct (step_inert ev st H) as (H1 & Hd & He & Hl).
  destruct (IH _ H1) as (H2 & Hd' & He' & Hl').
  repeat split; try apply H2; congruence.
Qed.

(** X16. When the map library fails to load, the error is shown and
    nothing else ever happens, whatever events follow: no map, no layer,
    no timer, no listener, no fetch, and the loading flag the component
    started with stays set. *)
Theorem failed_import_starts_nothing (evs : list Event) :
  let st := run (Mount :: ImportSettled false :: evs) initial in
  inert st /\
  error st = Some "Failed to load map library" /\
  isLoading st = true /\ stamp st = 0%nat /\ lastUpdate st = None.
Proof.
  cbv zeta.
  change (run (Mount :: ImportSettled false :: evs) initial)
    with (run evs (run [Mount; ImportSettled false] initial)).
  assert (H0 : inert (run [Mount; ImportSettled false] initial))
    by (repeat split).
  destruct (run_inert evs _ H0) as (H1 & Hd & He & Hl).
  destruct (drawn_eq _ _ Hd) as (_ & _ & Hu & Hs).
  split; [exact H1 |]. rewrite He, Hl, Hs, Hu. repeat split.
Qed.

(** X17. When the component is unmounted before the imports settle,
    initialisation stops there, whether the imports then succeed or fail
    and whatever events follow: no map is created, no layer, no timer, no
    listener, and no fetch is ever started. *)
Theorem unmount_before_import_aborts (ok : bool) (evs : list Event) :
  let st := run (Mount :: Unmount :: ImportSettled ok :: evs) initial in
  inert st /\ stamp st = 0%nat /\ lastUpdate st = None /\
  radarLayer_current st = None.
Proof.
  cbv zeta.
  change (run (Mount :: Unmount :: ImportSettled ok :: evs) initial)
    with (run evs (run [Mount; Unmount; ImportSettled ok] initial)).
  assert (H0 : inert (run [Mount; Unmount; ImportSettled ok] initial))
    by (destruct ok; repeat split).
  destruct (run_inert evs _ H0) as (H1 & Hd & _).
  destruct (drawn_eq _ _ Hd) as (_ & Hr & Hu & Hs).
  split; [exact H1 |]. rewrite Hs, Hu, Hr. destruct ok; repeat split.
Qed.

(** *** After the unmount *)

Lemma settle_without_map (o : FetchOutcome) (st : State) :
  map_current st = None ->
  drawn (fetchRadar_settle o st) = drawn st /\
  isMounted (fetchRadar_settle o st) = isMounted st /\
  init (fetchRadar_settle o st) = init st.
Proof.
  intros Hm. destruct o as [message | ok data]; cbn [fetchRadar_settle].
  - repeat split.
  - destruct (negb ok); [repeat split |].
    destruct (JS.truthy (p_error data)); [repeat split |].
    unfold install_overlay, drawn. cbv zeta. rewrite Hm.
    destruct (radarLayer_current st) eqn:Hr; rewrite Hm; cbn;
      rewrite ?Hm, ?Hr; repeat split.
Qed.

Lemma step_gone (ev : Event) (st : State) :
  gone st -> gone (step ev st) /\ drawn (step ev st) = drawn st.
Proof.
  intros (Hm & Hmo & Hi).
  destruct ev as [| ok | o | | |]; cbn [step].
  - destruct (init st) eqn:Hinit; [congruence | | |];
      repeat split; try assumption; congruence.
  - destruct (init st) eqn:Hinit;
      try (repeat split; try assumption; congruence).
    unfold initMap_after_import. rewrite Hmo.
    destruct (negb ok); cbn; unfold gone, drawn; cbn;
      repeat split; try assumption; discriminate.
  - destruct (in_flight st) as [|n]; [repeat split; assumption |].
    cbv zeta.
    destruct (settle_without_map o (set_in_flight n st) Hm) as (Hd & Hmo' & Hi').
    assert (Hm' : map_current (fetchRadar_settle o (set_in_flight n st)) = None).
    { destruct (drawn_eq _ _ Hd) as (H1 & _). rewrite H1. exact Hm. }
    cbn [isMounted init set_in_flight] in Hmo', Hi'.
    destruct (init (fetchRadar_settle o (set_in_flight n st))) eqn:Hinit;
      unfold gone; cbn [initMap_after_first_fetch fst]; cbn;
      rewrite ?Hinit; repeat split; try assumption; try congruence; try discriminate.
  - destruct (intervals st); [repeat split; assumption |].
    rewrite Hm. repeat split; assumption.
  - destruct (listeners st); repeat split; assumption.
  - cbn. unfold effect_cleanup. cbv zeta. cbn [map_current set_isMounted].
    rewrite Hm. unfold gone, drawn. cbn. repeat split; assumption.
Qed.

Lemma run_gone (evs : list Event) :
  forall st, gone st -> gone (run evs st) /\ drawn (run evs st) = drawn st.
Proof.
  induction evs as [|ev evs IH]; intros st H; [split; [exact H | reflexivity] |].
  change (run (ev :: evs) st) with (run evs (step ev st)).
  destruct (step_gone ev st H) as (H1 & Hd).
  destruct (IH _ H1) as (H2 & Hd').
  split; [exact H2 | congruence].
Qed.

(** X18. After the unmount of a component that had been mounted, no
    event draws anything or reports anything: there is no map again, no
    layer is created, the ref keeps what it held, and the parent is told
    no further timestamp, even for fetches that settle or start later. *)
Theorem nothing_is_drawn_after_unmount (st0 : State) (evs : list Event) :
  init st0 <> NotStarted ->
  let st := step Unmount st0 in
  map_current (run evs st) = None /\
  lastUpdate (run evs st) = lastUpdate st0 /\
  radarLayer_current (run evs st) = radarLayer_current st0 /\
  stamp (run evs st) = stamp st0.
Proof.
  intros Hi. cbv zeta.
  assert (H0 : gone (step Unmount st0)).
  { cbn. unfold effect_cleanup. cbv zeta. cbn [map_current set_isMounted].
    destruct (map_current st0) eqn:Hm0; unfold gone; cbn; repeat split; assumption. }
  assert (Hd0 : lastUpdate (step Unmount st0) = lastUpdate st0 /\
                radarLayer_current (step Unmount st0) = radarLayer_current st0 /\
                stamp (step Unmount st0) = stamp st0).
  { cbn. unfold effect_cleanup. cbv zeta. cbn [map_current set_isMounted].
    destruct (map_current st0); cbn; auto. }
  destruct (run_gone evs _ H0) as ((Hm & _) & Hd).
  destruct (drawn_eq _ _ Hd) as (_ & H2 & H3 & H4).
  destruct Hd0 as (Hu & Hr & Hs).
  repeat split; congruence.
Qed.

Lemma nothing_is_drawn_after_unmount_witness :
  let st0 := run [Mount; ImportSettled true; FetchSettled (Responded true good_payload)]
                 initial in
  let evs := [RefreshRadar; FetchSettled (Responded true good_payload); IntervalTick] in
  map_current (run evs (step Unmount st0)) = None /\
  lastUpdate (run evs (step Unmount st0)) = lastUpdate st0 /\
  radarLayer_current (run evs (step Unmount st0)) = radarLayer_current st0 /\
  stamp (run evs (step Unmount st0)) = stamp st0.
Proof.
  cbv zeta. apply nothing_is_drawn_after_unmount. vm_compute. discriminate.
Defined.

(** *** The base layer *)

Lemma removeLayer_keeps_base (old : Layer) (m : LeafletMap) :
  (1 <= layer_id old)%nat ->
  layers m = [base_layer] \/ layers m = [base_layer; old] ->
  layers (removeLayer old m) = [base_layer].
Proof.
  intros Hid Hm. unfold removeLayer. cbn [layers].
  assert (Hbase : negb (layer_id base_layer =? layer_id old)%nat = true).
  { cbn [base_layer layer_id]. destruct (layer_id old); [lia | reflexivity]. }
  destruct Hm as [-> | ->]; cbn [filter]; rewrite Hbase, ?Nat.eqb_refl; reflexivity.
Qed.

Lemma install_overlay_layers (data : Payload) (st : State) (m : LeafletMap) :
  well_layered st ->
  map_current st = Some m ->
  init (install_overlay data st) = init st /\
  match JS.if_truthy (p_tile_url data) with
  | Some url =>
      let l := {| layer_id := stamp st; layer_url := url; overlay := true |} in
      map_current (install_overlay data st) = Some {| layers := [base_layer; l] |} /\
      radarLayer_current (install_overlay data st) = Some l /\
      stamp (install_overlay data st) = S (stamp st)
  | None =>
      map_current (install_overlay data st) = Some {| layers := [base_layer] |} /\
      radarLayer_current (install_overlay data st) = radarLayer_current st /\
      stamp (install_overlay data st) = stamp st
  end.
Proof.
  intros (_ & Hradar & Hmap) Hm.
  destruct (Hmap m Hm) as (Hstamp & Hlayers).
  unfold install_overlay. cbv zeta. rewrite Hm.
  destruct (radarLayer_current st) as [old|] eqn:Hold.
  - destruct (Hradar old eq_refl) as (_ & Hid & _).
    assert (Hrem : layers (removeLayer old m) = [base_layer]).
    { apply removeLayer_keeps_base; [assumption |].
      destruct Hlayers as [H | (l & H & Hl)]; [now left |].
      right. congruence. }
    cbn [set_map map_current].
    destruct (JS.if_truthy (p_tile_url data)) as [url|];
      cbn; rewrite ?Hold; unfold addTo; rewrite ?Hrem;
      repeat split; try reflexivity.
    destruct (removeLayer old m) as [ls]. cbn [layers] in Hrem. now subst ls.
  - destruct Hlayers as [Hl | (l & _ & Hl)]; [| discriminate].
    rewrite Hm.
    destruct (JS.if_truthy (p_tile_url data)) as [url|];
      cbn; rewrite ?Hm, ?Hold; unfold addTo; rewrite ?Hl;
      repeat split; try reflexivity.
    destruct m as [ls]. cbn [layers] in Hl. now subst ls.
Qed.

Lemma layered_same (st st' : State) :
  init st' = init st \/ (init st' = InitDone) ->
  drawn st' = drawn st ->
  well_layered st -> well_layered st'.
Proof.
  intros Hinit Hd (H1 & H2 & H3).
  destruct (drawn_eq _ _ Hd) as (Hm & Hr & _ & Hs).
  unfold well_layered. rewrite Hm, Hr, Hs.
  split; [| split; assumption].
  intros Hi. apply H1. destruct Hinit as [<- | Hdone]; [assumption |].
  rewrite Hdone in Hi. destruct Hi; discriminate.
Qed.

Lemma fetchRadar_settle_layered (o : FetchOutcome) (st : State) :
  well_layered st ->
  well_layered (fetchRadar_settle o st) /\
  init (fetchRadar_settle o st) = init st.
Proof.
  intros Hinv.
  destruct (map_current st) as [m|] eqn:Hm.
  - destruct (usable o) eqn:Hu.
    + destruct o as [message | [|] data]; try discriminate.
      cbn in Hu |- *. destruct (JS.truthy (p_error data)); [discriminate |].
      destruct (install_overlay_layers data st m Hinv Hm) as (Hinit & Hshape).
      split; [| exact Hinit].
      destruct Hinv as (H1 & H2 & H3). destruct (H3 m Hm) as (Hstamp & _).
      assert (Hlate : ~ (init st = NotStarted \/ init st = AwaitImport)).
      { intros Hi. destruct (H1 Hi) as (Hnone & _). congruence. }
      unfold well_layered. rewrite Hinit.
      split; [intros Hi; contradiction |].
      destruct (JS.if_truthy (p_tile_url data)) as [url|].
      * destruct Hshape as (Hm' & Hr' & Hs'). rewrite Hm', Hr', Hs'.
        split.
        -- intros l Hl. inversion Hl; subst. cbn. split; [reflexivity | lia].
        -- intros m' Hm''. inversion Hm''; subst. split; [lia |].
           right. eexists. split; reflexivity.
      * destruct Hshape as (Hm' & Hr' & Hs'). rewrite Hm', Hr', Hs'.
        split; [assumption |].
        intros m' Hm''. inversion Hm''; subst. split; [assumption | now left].
    + rewrite fetchRadar_settle_unusable by assumption.
      split; [| reflexivity].
      apply layered_same with st; [now left | reflexivity | assumption].
  - destruct (settle_without_map o st Hm) as (Hd & _ & Hinit).
    split; [| exact Hinit].
    apply layered_same with st; [now left | assumption | assumption].
Qed.

Lemma step_layered (ev : Event) (st : State) :
  well_layered st -> well_layered (step ev st).
Proof.
  intros Hinv. destruct ev as [| ok | o | | |]; cbn [step].
  - destruct (init st) eqn:Hinit; try assumption.
    cbn. unfold initMap_begin. cbn [mapContainer_current set_isMounted].
    destruct Hinv as (H1 & H2 & H3).
    destruct (H1 (or_introl Hinit)) as (Hm & Hr & Hs).
    destruct (negb (mapContainer_current st)); unfold well_layered; cbn;
      rewrite Hm, Hr, Hs; repeat split; intros; discriminate.
  - destruct (init st) eqn:Hinit; try assumption.
    destruct Hinv as (H1 & H2 & H3).
    destruct (H1 (or_intror Hinit)) as (Hm & Hr & Hs).
    unfold initMap_after_import.
    destruct (negb ok);
      [unfold well_layered; cbn; rewrite Hm, Hr, Hs;
       repeat split; intros; try discriminate; destruct H; discriminate |].
    destruct (negb (isMounted st));
      [unfold well_layered; cbn; rewrite Hm, Hr, Hs;
       repeat split; intros; try discriminate; destruct H; discriminate |].
    unfold well_layered. cbn. rewrite Hr, Hs.
    split; [intros [H | H]; discriminate |].
    split; [intros l Hl; discriminate |].
    intros m Hm'. inversion Hm'; subst. split; [lia | now left].
  - destruct (in_flight st) as [|n]; [assumption |].
    cbv zeta.
    assert (Hpre : well_layered (set_in_flight n st))
      by (apply layered_same with st; [now left | reflexivity | assumption]).
    destruct (fetchRadar_settle_layered o (set_in_flight n st) Hpre) as (Hs & _).
    destruct (init (fetchRadar_settle o (set_in_flight n st))) eqn:Hinit;
      try assumption.
    apply layered_same with (fetchRadar_settle o (set_in_flight n st));
      [now right | reflexivity | assumption].
  - destruct (intervals st); [assumption |].
    destruct (map_current st); [| assumption].
    apply layered_same with st; [now left | reflexivity | assumption].
  - destruct (listeners st); [assumption |].
    apply layered_same with st; [now left | reflexivity | assumption].
  - cbn. unfold effect_cleanup. cbv zeta. cbn [map_current set_isMounted].
    destruct Hinv as (H1 & H2 & H3).
    destruct (map_current st) eqn:Hm; unfold well_layered; cbn; rewrite ?Hm;
      (split; [intros Hi; destruct (H1 Hi) as (Hn & Hr & Hs); auto; congruence |]);
      (split; [assumption |]); try assumption.
    intros m Hm'. discriminate.
Qed.

Lemma run_layered (evs : list Event) :
  forall st, well_layered st -> well_layered (run evs st).
Proof.
  induction evs as [|ev evs IH]; intros st Hinv; [assumption |].
  change (run (ev :: evs) st) with (run evs (step ev st)).
  apply IH, step_layered, Hinv.
Qed.

Lemma initial_layered : well_layered initial.
Proof.
  unfold well_layered. cbn. repeat split; intros; discriminate.
Qed.

(** X19. Whenever the component has a map, the map holds the base layer
    first and after it at most one layer, the overlay the ref points to,
    whose Leaflet id is not the base layer's: swapping overlays, with ids
    compared by [removeLayer], never takes the base layer off the map. *)
Theorem base_layer_stays (evs : list Event) (m : LeafletMap) :
  map_current (run evs initial) = Some m ->
  layers m = [base_layer] \/
  exists l,
    layers m = [base_layer; l] /\
    radarLayer_current (run evs initial) = Some l /\
    overlay l = true /\ (1 <= layer_id l < stamp (run evs initial))%nat.
Proof.
  intros Hm.
  destruct (run_layered evs initial initial_layered) as (_ & H2 & H3).
  destruct (H3 m Hm) as (_ & [Hl | (l & Hl & Hr)]); [now left |].
  right. exists l. destruct (H2 l Hr) as (Hov & Hid). auto.
Qed.

Lemma base_layer_stays_witness :
  let evs := [Mount; ImportSettled true; FetchSettled (Responded true good_payload);
              RefreshRadar; FetchSettled (Responded true good_payload)] in
  let m := {| layers := [base_layer;
                         {| layer_id := 2;
                            layer_url := "https://mesonet.agron.iastate.edu/cache/tile.py/1.0.0/nexrad-n0q-900913/{z}/{x}/{y}.png";
                            overlay := true |}] |} in
  layers m = [base_layer] \/
  exists l,
    layers m = [base_layer; l] /\
    radarLayer_current (run evs initial) = Some l /\
    overlay l = true /\ (1 <= layer_id l < stamp (run evs initial))%nat.
Proof.
  cbv zeta. apply base_layer_stays. vm_compute. reflexivity.
Defined.

End Display.

(** ** The page, [src/app/page.tsx] *)

Module Page.

(** The state of [Home], and the [detail.timestamp] of every
    [refresh-radar] event it has dispatched (latest first). [dataAge] is
    [None] when the subtraction gave [NaN]. *)
Record State := {
  lastUpdate : string;
  isLoading : bool;
  dataAge : option Z;
  dispatched : list Z
}.

Definition initial : State :=
  {| lastUpdate := ""; isLoading := false; dataAge := Some 0; dispatched := [] |}.

Definition setLastUpdate (t : string) (st : State) : State :=
  {| lastUpdate := t; isLoading := isLoading st; dataAge := dataAge st;
     dispatched := dispatched st |}.
Definition setIsLoading (b : bool) (st : State) : State :=
  {| lastUpdate := lastUpdate st; isLoading := b; dataAge := dataAge st;
     dispatched := dispatched st |}.
Definition setDataAge (a : option Z) (st : State) : State :=
  {| lastUpdate := lastUpdate st; isLoading := isLoading st; dataAge := a;
     dispatched := dispatched st |}.
Definition dispatchEvent (timestamp : Z) (st : State) : State :=
  {| lastUpdate := lastUpdate st; isLoading := isLoading st; dataAge := dataAge st;
     dispatched := timestamp :: dispatched st |}.

(** [handleRefresh], called at the instant [now]. *)
Definition handleRefresh (now : Z) (st : State) : State :=
  dispatchEvent now (setIsLoading true st).

(** The [disabled] attribute of the Refresh button. *)
Definition button_disabled (st : State) : bool := isLoading st.

(** What the header shows under the time, [dataAge > 0 && `${dataAge}s ago`]. *)
Definition age_label (st : State) : option string :=
  match dataAge st with
  | Some a => if 0 <? a then Some (JS.String_of a ++ "s ago") else None
  | None => None
  end.

Section Home.

(** [new Date(string).getTime()], [None] for [NaN]. *)
Variable Date_parse : string -> option Z.

(** The callback of the 10-second timer, at the instant [now]. *)
Definition tick (now : Z) (st : State) : State :=
  if JS.truthy (Some (lastUpdate st)) then
    let timeDiff :=
      match Date_parse (lastUpdate st) with
      | Some t => Some ((now - t) / 1000)
      | None => None
      end in
    setDataAge timeDiff st
  else st.

(** What can happen to the page: a click on the button (a disabled button
    does not call [onClick]), a timer tick, and the display controller
    reporting a timestamp. *)
Inductive Event :=
| Click (now : Z)
| Tick (now : Z)
| LastUpdateChange (t : string).

Definition step (ev : Event) (st : State) : State :=
  match ev with
  | Click now => if button_disabled st then st else handleRefresh now st
  | Tick now => tick now st
  | LastUpdateChange t => setLastUpdate t st
  end.

Definition run (evs : list Event) (st : State) : State :=
  fold_left (fun s ev => step ev s) evs st.

Lemma step_keeps_loading (ev : Event) (st : State) :
  isLoading st = true -> isLoading (step ev st) = true.
Proof.
  intros H. destruct ev as [now | now | t]; cbn.
  - unfold button_disabled. now rewrite H.
  - unfold tick. destruct (JS.truthy (Some (lastUpdate st))); assumption.
  - assumption.
Qed.

Lemma run_keeps_loading (evs : list Event) :
  forall st, isLoading st = true -> isLoading (run evs st) = true.
Proof.
  induction evs as [|ev evs IH]; intros st H; [assumption |].
  cbn [run fold_left]. apply IH, step_keeps_loading, H.
Qed.

Lemma step_dispatches_once (ev : Event) (st : State) :
  (isLoading st = false -> dispatched st = []) ->
  (List.length (dispatched st) <= 1)%nat ->
  (isLoading (step ev st) = false -> dispatched (step ev st) = []) /\
  (List.length (dispatched (step ev st)) <= 1)%nat.
Proof.
  intros Hidle Hle. destruct ev as [now | now | t]; cbn.
  - unfold button_disabled. destruct (isLoading st) eqn:Hl.
    + rewrite Hl. auto.
    + cbn. rewrite (Hidle eq_refl). cbn. split; [discriminate | lia].
  - unfold tick. destruct (JS.truthy (Some (lastUpdate st))); cbn; auto.
  - auto.
Qed.

Lemma run_dispatches_once (evs : list Event) :
  forall st,
    (isLoading st = false -> dispatched st = []) ->
    (List.length (dispatched st) <= 1)%nat ->
    (List.length (dispatched (run evs st)) <= 1)%nat.
Proof.
  induction evs as [|ev evs IH]; intros st Hidle Hle; [assumption |].
  cbn [run fold_left].
  destruct (step_dispatches_once ev st Hidle Hle) as [H1 H2].
  now apply IH.
Qed.

(** C10. After a click on the Refresh button [isLoading] is true, and it
    stays true whatever happens next, so the button stays disabled; from
    the initial state the page dispatches at most one [refresh-radar]
    event. *)
Theorem refresh_button_stays_disabled (now : Z) (st : State) (evs : list Event) :
  isLoading (step (Click now) st) = true /\
  isLoading (run evs (step (Click now) st)) = true /\
  button_disabled (run evs (step (Click now) st)) = true /\
  (List.length (dispatched (run evs initial)) <= 1)%nat.
Proof.
  assert (H : isLoading (step (Click now) st) = true).
  { cbn. unfold button_disabled. destruct (isLoading st) eqn:Hl; [exact Hl | reflexivity]. }
  repeat split.
  - exact H.
  - now apply run_keeps_loading.
  - unfold button_disabled. now apply run_keeps_loading.
  - apply run_dispatches_once; cbn; auto.
Qed.

(** X20. A tick before any timestamp was reported changes nothing. With
    a timestamp that parses, the tick sets the age to the whole seconds
    between it and now, rounded down, and the label shows exactly when at
    least one full second has passed; with one that does not parse the age
    is not a number and no label shows. A tick never touches the loading
    flag or the timestamp. *)
Theorem data_age_after_tick (now : Z) (st : State) :
  (lastUpdate st = "" -> tick now st = st) /\
  (lastUpdate st <> "" ->
   forall t, Date_parse (lastUpdate st) = Some t ->
     exists a,
       dataAge (tick now st) = Some a /\
       a * 1000 <= now - t < a * 1000 + 1000 /\
       (age_label (tick now st) <> None <-> 1000 <= now - t)) /\
  (lastUpdate st <> "" -> Date_parse (lastUpdate st) = None ->
   dataAge (tick now st) = None /\ age_label (tick now st) = None) /\
  isLoading (tick now st) = isLoading st /\
  lastUpdate (tick now st) = lastUpdate st.
Proof.
  unfold tick. cbv zeta.
  destruct (lastUpdate st) as [|c rest] eqn:Hlu; cbn [JS.truthy].
  - split; [reflexivity |].
    split; [intros Hne; now destruct Hne |].
    split; [intros Hne; now destruct Hne |].
    split; [reflexivity | exact Hlu].
  - split; [discriminate |].
    split; [| split; [| split; [reflexivity | exact Hlu]]].
    + intros _ t Ht. rewrite Ht. exists ((now - t) / 1000).
      split; [reflexivity |]. split; [Z.div_mod_to_equations; lia |].
      unfold age_label. cbn [dataAge setDataAge].
      destruct (0 <? (now - t) / 1000) eqn:Hpos.
      * apply Z.ltb_lt in Hpos. split; [| discriminate].
        intros _. Z.div_mod_to_equations. lia.
      * apply Z.ltb_ge in Hpos. split; [intros Hshown; now destruct Hshown |].
        intros Hsec. exfalso. Z.div_mod_to_equations. lia.
    + intros _ Hnone. rewrite Hnone. split; reflexivity.
Qed.

End Home.

Lemma data_age_after_tick_witness :
  let st := {| lastUpdate := "2024-06-15T12:00:00.000Z"; isLoading := false;
               dataAge := Some 0; dispatched := [] |} in
  exists a,
    dataAge (tick (fun _ => Some 1718452800000) 1718452890123 st) = Some a /\
    a * 1000 <= 1718452890123 - 1718452800000 < a * 1000 + 1000 /\
    (age_label (tick (fun _ => Some 1718452800000) 1718452890123 st) <> None
     <-> 1000 <= 1718452890123 - 1718452800000).
Proof.
  cbv zeta.
  refine (proj1 (proj2 (data_age_after_tick (fun _ => Some 1718452800000)
                          1718452890123 _)) _ 1718452800000 _).
  - discriminate.
  - reflexivity.
Defined.

End Page.
